(** * communitybot: the block listener and its welcome command

    A shallow embedding of [communitybot/communitybot.py]: the checkpoint
    files, the [TransactionListener] methods ([properties],
    [process_block], [run], [upvote], [handle_command], [check_block])
    and the entry point [listen], followed by the properties of the
    ingestion loop and of the command processor.

    The Steem node, the [steem.post.Post] class, the [dataset] tables and
    the file system are outside the repository.  They appear here as an
    environment [Env] of answers indexed by a logical clock, and as a
    [State] holding the tables, the configuration directory and the trace
    of every interaction the program performed. *)

From Stdlib Require Import List String Ascii ZArith Lia Bool Arith.
From Stdlib Require Import DecimalString DecimalZ DecimalPos.
From Equations Require Import Equations.
Import ListNotations.

Local Open Scope string_scope.
Local Open Scope Z_scope.
Local Open Scope list_scope.

(** ** Python strings

    A [str] is modelled by a Rocq [string]; a character stands for the
    code point of the same number, so the model covers text in the range
    U+0000..U+00FF. *)

Module PyStr.

(** [sub in s] for two strings. *)
Fixpoint contains (sub s : string) : bool :=
  if String.prefix sub s then true
  else match s with
       | EmptyString => false
       | String _ s' => contains sub s'
       end.

(** [s.replace(old, new)] for a non-empty [old]: occurrences are taken
    from left to right and do not overlap.  [skip] counts the characters
    of the occurrence being replaced that are still to be dropped. *)
Fixpoint replace_from (skip : nat) (old new s : string) : string :=
  match s with
  | EmptyString => EmptyString
  | String c s' =>
      match skip with
      | S k => replace_from k old new s'
      | O =>
          if String.prefix old s
          then (new ++
                replace_from (String.length old - 1) old new s')%string
          else String c (replace_from O old new s')
      end
  end.

Definition replace (old new s : string) : string :=
  replace_from O old new s.

(** [str.isspace] on the code points below 256; this is also the class
    [\s] of the [re] module for [str] patterns. *)
Definition isspace (c : ascii) : bool :=
  let n := nat_of_ascii c in
  ((9 <=? n) && (n <=? 13) || (28 <=? n) && (n <=? 32)
   || (n =? 133) || (n =? 160))%nat.

Fixpoint lstrip (s : string) : string :=
  match s with
  | EmptyString => EmptyString
  | String c s' => if isspace c then lstrip s' else s
  end.

Fixpoint rstrip (s : string) : string :=
  match s with
  | EmptyString => EmptyString
  | String c s' =>
      match rstrip s' with
      | EmptyString => if isspace c then EmptyString else String c EmptyString
      | r => String c r
      end
  end.

Definition strip (s : string) : string := rstrip (lstrip s).

(** [str(n)] for an [int]. *)
Definition str (n : Z) : string := NilZero.string_of_int (Z.to_int n).

(** [int(s)]: surrounding whitespace is ignored and one sign is allowed
    before the digits.  [None] stands for [ValueError].  Digit groups
    separated by underscores, which [int] also reads, are not modelled:
    [str] never prints them. *)
Definition int (s : string) : option Z :=
  match strip s with
  | String "+" d =>
      match d with
      | String "-" _ => None
      | _ => option_map Z.of_int (NilZero.int_of_string d)
      end
  | d => option_map Z.of_int (NilZero.int_of_string d)
  end.

End PyStr.

(** ** The pattern of the welcome command

    [re.findall("@%s\s!(welcome)" % self.account, body)].  The account is
    pasted into the pattern as it is.  Steem account names are made of
    [a-z], [0-9], [-] and [.]; of these only [.] is special in a pattern,
    where it stands for any character but a newline.  [\s] is exactly one
    whitespace character.  The model is that of the pattern for account
    names over these characters; the other characters that are special
    in a pattern are outside it. *)

Module Re.

Inductive atom : Type :=
| Lit (c : ascii)       (* the character itself *)
| Dot                   (* [.] *)
| Space.                (* [\s] *)

Definition atom_matches (a : atom) (c : ascii) : bool :=
  match a with
  | Lit x => Ascii.eqb x c
  | Dot => negb (Ascii.eqb c "010")
  | Space => PyStr.isspace c
  end.

Definition atom_of_char (c : ascii) : atom :=
  if Ascii.eqb c "." then Dot else Lit c.

Fixpoint atoms_of_account (account : string) : list atom :=
  match account with
  | EmptyString => []
  | String c r => atom_of_char c :: atoms_of_account r
  end.

Fixpoint lits (s : string) : list atom :=
  match s with
  | EmptyString => []
  | String c r => Lit c :: lits r
  end.

(** The pattern ["@%s\s!(welcome)" % account]; the group holds the
    literal text [welcome]. *)
Definition welcome_pattern (account : string) : list atom :=
  Lit "@" :: atoms_of_account account ++ [Space; Lit "!"] ++ lits "welcome".

(** Does the pattern match at the start of [s]? *)
Fixpoint match_here (p : list atom) (s : string) : bool :=
  match p, s with
  | [], _ => true
  | a :: p', String c s' => atom_matches a c && match_here p' s'
  | _ :: _, EmptyString => false
  end.

(** The matches from left to right, without overlap; every atom takes
    one character, so a match is [length p] characters long.  With one
    group in the pattern [findall] returns the text of the group for
    each match. *)
Fixpoint findall_from (skip : nat) (p : list atom) (group : string)
    (s : string) : list string :=
  match s with
  | EmptyString => []
  | String _ s' =>
      match skip with
      | S k => findall_from k p group s'
      | O =>
          if match_here p s
          then group :: findall_from (List.length p - 1) p group s'
          else findall_from O p group s'
      end
  end.

Definition findall_welcome (account body : string) : list string :=
  findall_from O (welcome_pattern account) "welcome" body.

End Re.

Example findall_welcome_twice :
  Re.findall_welcome "bot" "@bot !welcome and @bot	!welcome" =
  ["welcome"; "welcome"].
Proof. reflexivity. Qed.

Example replace_username :
  PyStr.replace "$username" "alice" "Hi @$username, $username!" =
  "Hi @alice, alice!".
Proof. reflexivity. Qed.

Example mention_in_body :
  PyStr.contains "@bot" "hello @bot !welcome friend" = true /\
  PyStr.contains "@bot" "hello bot" = false.
Proof. split; reflexivity. Qed.

Example int_of_text :
  PyStr.int " 95
" = Some 95 /\ PyStr.int "+7" = Some 7 /\ PyStr.int "-3" = Some (-3)
  /\ PyStr.int "None" = None /\ PyStr.int "" = None /\ PyStr.int "+-3" = None.
Proof. repeat split. Qed.

(** ** Data *)

(** A post identifier, [@author/permlink]. *)
Definition identifier : Type := (string * string)%type.

(** What the program reads from a [steem.post.Post]. *)
Record Post : Type := mkPost {
  author : string;             (* post["author"] *)
  permlink : string;           (* post["permlink"] *)
  body : string;               (* post["body"] *)
  is_main_post : bool;         (* post.is_main_post() *)
  root_identifier : identifier (* post.root_identifier *)
}.

Definition post_identifier (p : Post) : identifier :=
  (author p, permlink p).

(** [operation["op"][0:2]]: the type of the operation and its data; of
    the data only the identity of the comment is used, by [Post]. *)
Record operation : Type := mkOp {
  operation_type : string;
  raw_data : identifier
}.

(** The value of [get_block]: [None], or a dictionary, of which the
    program inspects the truth value and the keys. *)
Inductive block_data : Type :=
| PyNone
| Dict (keys : list string).

Definition truthy (b : block_data) : bool :=
  match b with
  | PyNone => false
  | Dict [] => false
  | Dict (_ :: _) => true
  end.

(** The dynamic global properties; the snapshot is otherwise opaque. *)
Record props : Type := mkProps {
  head_block_number : Z;
  props_time : string
}.

(** A row of the tables [welcome] and [upvote]. *)
Record row : Type := mkRow {
  row_author : string;
  row_permlink : string;
  created_at : string
}.

(** The directory [~/.communitybot] with its two files.  The state file
    holds the JSON text of a snapshot or of [None]; the text itself is
    not modelled. *)
Record config_dir : Type := mkDir {
  STATE : option (option props);
  CHECKPOINT : option string
}.

Inductive exn : Type :=
| FileNotFoundError
| ValueError
| TypeError
| RecursionError
| PostDoesNotExist.

Inductive level : Type := INFO | ERROR.

(** The log calls of the module, one constructor per format string. *)
Inductive message : Type :=
| Couldnt_get_block_num
| Retried_3_times_Skipping (block_num : Z)
| Couldnt_read_the_block_Retrying (block_num : Z)
| Processing_block (block_num : Z)
| Last_processed_block (block_num : Z)
| Sleeping_for_seconds (block_interval : Z)
| Already_voted_Skipping (full_link : identifier)
| Failed_upvoting (full_link : identifier)
| User_on_blacklist_Skipping (permlink : string)
| Already_welcomed_Skipping (user : string)
| Skipping_Not_a_main_post
| Replied_and_upvoted_user (user : string)
| Starting_TX_listener.

(** Everything the program does to the outside, in the order it does
    it. *)
Inductive event : Type :=
| get_block (block_num : Z)
| get_dynamic_global_properties
| get_config
| get_ops_in_block (block_num : Z)
| Post_init (id : identifier)
| reply (parent : identifier) (body : string) (author : string)
| vote (id : identifier) (weight : Z) (account : string)
| now_call
| log (lvl : level) (m : message)
| sleep (seconds : Z)
| makedirs
| write_state (data : option props)
| write_checkpoint (text : string).

(** The answers of the outside world.  Each answer may depend on the
    moment of the call, the number of events performed before it, so
    that a call repeated later may be answered differently. *)
Record Env : Type := mkEnv {
  (* configuration *)
  account : string;
  blacklisted_users : list string;
  welcome_message : option string;  (* the text of the template file *)
  (* the node *)
  steem_get_block : nat -> Z -> block_data;
  steem_get_dynamic_global_properties : nat -> option props;
  steem_block_interval : nat -> Z;
  steem_get_ops_in_block : nat -> Z -> list operation;
  (* Post(...): [None] when the post does not exist *)
  steem_post : nat -> identifier -> option Post;
  (* the response of commit.vote, by its truth value *)
  commit_vote : nat -> identifier -> bool;
  datetime_now : nat -> string;
  (* how deep [properties] may call itself before the interpreter
     raises RecursionError *)
  recursion_limit : nat
}.

Record State : Type := mkState {
  trace : list event;             (* latest event first *)
  CONFIG_PATH : option config_dir;(* [None]: the directory is absent *)
  welcome : list row;
  upvote_table : list row
}.

Definition clock (s : State) : nat := List.length (trace s).

Definition emit (ev : event) (s : State) : State :=
  mkState (ev :: trace s) (CONFIG_PATH s) (welcome s) (upvote_table s).

Definition set_dir (d : option config_dir) (s : State) : State :=
  mkState (trace s) d (welcome s) (upvote_table s).

Definition set_welcome (t : list row) (s : State) : State :=
  mkState (trace s) (CONFIG_PATH s) t (upvote_table s).

(** ** Computations: a state, and a value or an exception *)

Inductive result (A : Type) : Type :=
| Ret (a : A)
| Raise (e : exn).
Arguments Ret {A} a.
Arguments Raise {A} e.

Definition M (A : Type) : Type := State -> result A * State.

Definition ret {A} (a : A) : M A := fun s => (Ret a, s).
Definition raise {A} (e : exn) : M A := fun s => (Raise e, s).

Definition bind {A B} (m : M A) (k : A -> M B) : M B :=
  fun s =>
    match m s with
    | (Ret a, s') => k a s'
    | (Raise e, s') => (Raise e, s')
    end.

(** [try: m except e: h]. *)
Definition try_except {A} (m : M A) (handles : exn -> bool) (h : M A) : M A :=
  fun s =>
    match m s with
    | (Raise e, s') => if handles e then h s' else (Raise e, s')
    | r => r
    end.

Definition do_ (ev : event) : M unit := fun s => (Ret tt, emit ev s).
Definition logger (lvl : level) (m : message) : M unit := do_ (log lvl m).

Notation "x <- m ;; k" := (bind m (fun x => k))
  (at level 61, m at next level, right associativity).
Notation "m ;;; k" := (bind m (fun _ => k))
  (at level 61, right associativity).

Definition is_exn (e1 e2 : exn) : bool :=
  match e1, e2 with
  | FileNotFoundError, FileNotFoundError
  | ValueError, ValueError
  | TypeError, TypeError
  | RecursionError, RecursionError
  | PostDoesNotExist, PostDoesNotExist => true
  | _, _ => false
  end.

(** A call to the outside: the event is recorded and the answer is the
    one the environment gives at this moment. *)
Definition ask {A} (ev : event) (answer : nat -> A) : M A :=
  fun s => (Ret (answer (clock s)), emit ev s).

Fixpoint for_each {A} (f : A -> M unit) (l : list A) : M unit :=
  match l with
  | [] => ret tt
  | x :: rest => f x ;;; for_each f rest
  end.

(** ** The state and checkpoint files *)

(** [open(path).read()] *)
Definition read_file {A} (file : config_dir -> option A) : M A :=
  fun s =>
    match CONFIG_PATH s with
    | Some d =>
        match file d with
        | Some content => (Ret content, s)
        | None => (Raise FileNotFoundError, s)
        end
    | None => (Raise FileNotFoundError, s)
    end.

(** [open(path, 'w+')], [write], [close]: the directory has to exist. *)
Definition write_file (ev : event) (update : config_dir -> config_dir)
  : M unit :=
  fun s =>
    match CONFIG_PATH s with
    | Some d => (Ret tt, emit ev (set_dir (Some (update d)) s))
    | None => (Raise FileNotFoundError, s)
    end.

Definition exists_CONFIG_PATH : M bool :=
  fun s => (Ret (match CONFIG_PATH s with Some _ => true | None => false end),
            s).

Definition makedirs_CONFIG_PATH : M unit :=
  fun s => (Ret tt, emit makedirs (set_dir (Some (mkDir None None)) s)).

Definition dump_state (data : option props) : M unit :=
  write_file (write_state data)
    (fun d => mkDir (Some data) (CHECKPOINT d)).

(** [str(block_num)], where [block_num] may be [None]. *)
Definition str_block_num (block_num : option Z) : string :=
  match block_num with
  | Some n => PyStr.str n
  | None => "None"
  end.

Definition dump_checkpoint (block_num : option Z) : M unit :=
  write_file (write_checkpoint (str_block_num block_num))
    (fun d => mkDir (STATE d) (Some (str_block_num block_num))).

Definition int_ (text : string) : M Z :=
  match PyStr.int text with
  | Some n => ret n
  | None => raise ValueError
  end.

(** The body of the [try] of [load_checkpoint]. *)
Definition read_checkpoint : M Z :=
  text <- read_file CHECKPOINT ;; int_ text.

(** The [except FileNotFoundError] branch up to the call of
    [load_checkpoint()]. *)
Definition seed_checkpoint (fallback_block_num : option Z) : M unit :=
  there <- exists_CONFIG_PATH ;;
  (if negb there then makedirs_CONFIG_PATH else ret tt) ;;;
  dump_checkpoint fallback_block_num.

(** 1 while the checkpoint file cannot be opened, 0 afterwards. *)
Definition checkpoint_absent (s : State) : nat :=
  match CONFIG_PATH s with
  | Some d => match CHECKPOINT d with Some _ => 0%nat | None => 1%nat end
  | None => 1%nat
  end.

Lemma read_checkpoint_FileNotFoundError s s' :
  read_checkpoint s = (Raise FileNotFoundError, s') ->
  checkpoint_absent s = 1%nat.
Proof.
  unfold read_checkpoint, bind, read_file, checkpoint_absent, int_.
  destruct (CONFIG_PATH s) as [d|]; [|reflexivity].
  destruct (CHECKPOINT d) as [t|]; [|reflexivity].
  destruct (PyStr.int t); discriminate.
Qed.

Lemma seed_checkpoint_Ret fb s u s' :
  seed_checkpoint fb s = (Ret u, s') -> checkpoint_absent s' = 0%nat.
Proof.
  unfold seed_checkpoint, bind, exists_CONFIG_PATH, dump_checkpoint,
    write_file, makedirs_CONFIG_PATH, ret, checkpoint_absent.
  destruct (CONFIG_PATH s) eqn:E; simpl; rewrite ?E; intros H;
    inversion H; subst; reflexivity.
Qed.

(** A value together with the equation that it is the value of [a]. *)
Definition inspect {A} (a : A) : {b : A | a = b} := exist _ a eq_refl.

Equations? load_checkpoint (fallback_block_num : option Z) (s : State)
  : result Z * State by wf (checkpoint_absent s) lt :=
load_checkpoint fallback_block_num s with inspect (read_checkpoint s) => {
  | exist _ (Raise FileNotFoundError, s1) Hread
      with inspect (seed_checkpoint fallback_block_num s1) => {
      | exist _ (Ret _, s2) Hseed => load_checkpoint None s2
      | exist _ (Raise e, s2) _ => (Raise e, s2) }
  | exist _ r _ => r }.
Proof.
  assert (s1 = s) as ->.
  { revert Hread. unfold read_checkpoint, bind, read_file, int_, ret, raise.
    destruct (CONFIG_PATH s) as [d|]; [|intros [= <-]; reflexivity].
    destruct (CHECKPOINT d) as [t|]; [|intros [= <-]; reflexivity].
    destruct (PyStr.int t); intros [= <-]; reflexivity. }
  rewrite (read_checkpoint_FileNotFoundError _ _ Hread).
  rewrite (seed_checkpoint_Ret _ _ _ _ Hseed). lia.
Qed.

(** The same for the state file. *)
Definition load_state_absent (s : State) : nat :=
  match CONFIG_PATH s with
  | Some d => match STATE d with Some _ => 0%nat | None => 1%nat end
  | None => 1%nat
  end.

Definition seed_state (fallback_data : option props) : M unit :=
  there <- exists_CONFIG_PATH ;;
  (if negb there then makedirs_CONFIG_PATH else ret tt) ;;;
  dump_state fallback_data.

Lemma read_state_FileNotFoundError s s' :
  read_file STATE s = (Raise FileNotFoundError, s') ->
  s' = s /\ load_state_absent s = 1%nat.
Proof.
  unfold read_file, load_state_absent.
  destruct (CONFIG_PATH s) as [d|]; [|intros H; inversion H; auto].
  destruct (STATE d); intros H; inversion H; auto.
Qed.

Lemma seed_state_Ret fb s u s' :
  seed_state fb s = (Ret u, s') -> load_state_absent s' = 0%nat.
Proof.
  unfold seed_state, bind, exists_CONFIG_PATH, dump_state,
    write_file, makedirs_CONFIG_PATH, ret, load_state_absent.
  destruct (CONFIG_PATH s) eqn:E; simpl; rewrite ?E; intros H;
    inversion H; subst; reflexivity.
Qed.

Equations? load_state (fallback_data : option props) (s : State)
  : result (option props) * State by wf (load_state_absent s) lt :=
load_state fallback_data s with inspect (read_file STATE s) => {
  | exist _ (Raise FileNotFoundError, s1) Hread
      with inspect (seed_state fallback_data s1) => {
      | exist _ (Ret _, s2) Hseed => load_state None s2
      | exist _ (Raise e, s2) _ => (Raise e, s2) }
  | exist _ r _ => r }.
Proof.
  destruct (read_state_FileNotFoundError _ _ Hread) as [-> Habs].
  rewrite Habs, (seed_state_Ret _ _ _ _ Hseed). lia.
Qed.

(** The defining equation of [load_checkpoint], in the shape of the
    source: the [try], and in the handler the seeding followed by the
    call of [load_checkpoint()]. *)
Lemma load_checkpoint_eq fb s :
  load_checkpoint fb s =
  try_except read_checkpoint (is_exn FileNotFoundError)
    (seed_checkpoint fb ;;; load_checkpoint None) s.
Proof.
  funelim (load_checkpoint fb s); unfold try_except, bind;
    repeat match goal with
           | H : ?m = (_, _) |- context [?m] => rewrite H
           end; reflexivity.
Qed.

(** ** TransactionListener *)

Section Listener.

Variable e : Env.

(** [properties] calls itself until the node answers. *)
Fixpoint properties_from (depth : nat) : M props :=
  match depth with
  | O => raise RecursionError
  | S d =>
      answer <- ask get_dynamic_global_properties
                  (steem_get_dynamic_global_properties e) ;;
      match answer with
      | None => logger INFO Couldnt_get_block_num ;;; properties_from d
      | Some p => ret p
      end
  end.

Definition properties : M props := properties_from (recursion_limit e).

Definition last_block_num : M Z :=
  p <- properties ;; ret (head_block_number p).

Definition block_interval : M Z :=
  ask get_config (steem_block_interval e).

(** [Post(...)] *)
Definition Post_ (id : identifier) : M Post :=
  answer <- ask (Post_init id) (fun t => steem_post e t id) ;;
  match answer with
  | Some p => ret p
  | None => raise PostDoesNotExist
  end.

(** [get_table(...).find_one(...)] and [insert]. *)
Definition find_one_upvote (a p : string) : M (option row) :=
  fun s =>
    (Ret (find (fun r => String.eqb (row_author r) a
                         && String.eqb (row_permlink r) p)
               (upvote_table s)), s).

Definition find_one_welcome (a : string) : M (option row) :=
  fun s =>
    (Ret (find (fun r => String.eqb (row_author r) a) (welcome s)), s).

Definition insert_welcome (r : row) : M unit :=
  fun s => (Ret tt, set_welcome (welcome s ++ [r]) s).

Definition upvote (post : Post) : M unit :=
  let full_link := post_identifier post in
  already_upvoted <- find_one_upvote (author post) (permlink post) ;;
  match already_upvoted with
  | Some _ => logger INFO (Already_voted_Skipping full_link)
  | None =>
      resp <- ask (vote (post_identifier post) 80 (account e))
                (fun t => commit_vote e t (post_identifier post)) ;;
      if negb resp then logger ERROR (Failed_upvoting full_link)
      else ret tt
  end.

(** [open(self.config["welcome_message"]).read()] *)
Definition read_welcome_message : M string :=
  match welcome_message e with
  | Some text => ret text
  | None => raise FileNotFoundError
  end.

Definition handle_command (post : Post) : M unit :=
  if existsb (String.eqb (author post)) (blacklisted_users e) then
    logger INFO (User_on_blacklist_Skipping (permlink post))
  else
    (* welcome command *)
    match Re.findall_welcome (account e) (body post) with
    | [] => ret tt
    | _ :: _ =>
        main_post <- Post_ (root_identifier post) ;;
        already_welcomed <- find_one_welcome (author main_post) ;;
        match already_welcomed with
        | Some _ =>
            logger INFO (Already_welcomed_Skipping (author main_post))
        | None =>
            text <- read_welcome_message ;;
            let text := PyStr.replace "$username" (author main_post) text in
            do_ (reply (post_identifier main_post) text (account e)) ;;;
            if negb (is_main_post main_post) then
              logger INFO Skipping_Not_a_main_post
            else
              upvote main_post ;;;
              logger INFO (Replied_and_upvoted_user (author main_post)) ;;;
              stamp <- ask now_call (datetime_now e) ;;
              insert_welcome
                (mkRow (author main_post) (permlink main_post) stamp)
        end
    end.

(** The body of the [for] of [check_block]; [continue] is [ret tt]. *)
Definition check_operation (operation : operation) : M unit :=
  if String.eqb (operation_type operation) "comment" then
    found <- try_except
               (post <- Post_ (raw_data operation) ;; ret (Some post))
               (is_exn PostDoesNotExist)
               (ret None) ;;
    match found with
    | None => ret tt
    | Some post =>
        if is_main_post post then
          (* we're only interested in comments. *)
          ret tt
        else if PyStr.contains ("@" ++ account e)%string (body post) then
          handle_command post
        else ret tt
    end
  else ret tt.

Definition check_block (block_num : Z) : M unit :=
  operation_data <- ask (get_ops_in_block block_num)
                      (fun t => steem_get_ops_in_block e t block_num) ;;
  for_each check_operation operation_data.

(** ['transactions' not in block_data]; [None] is not a container. *)
Definition transactions_not_in (block_data : block_data) : M bool :=
  match block_data with
  | PyNone => raise TypeError
  | Dict keys => ret (negb (existsb (String.eqb "transactions") keys))
  end.

(** [process_block] from the line that logs the block on. *)
Definition process_fetched (block_num : Z) (block_data : block_data)
  : M unit :=
  logger INFO (Processing_block block_num) ;;;
  absent <- transactions_not_in block_data ;;
  if absent then ret tt
  else
    check_block block_num ;;;
    p <- properties ;;
    dump_state (Some p).

Equations? process_block (block_num : Z) (retry_count : nat) (s : State)
  : result unit * State by wf (4 - retry_count)%nat lt :=
process_block block_num retry_count s
    with ask (get_block block_num)
             (fun t => steem_get_block e t block_num) s => {
  | (Raise x, s1) => (Raise x, s1)
  | (Ret block_data, s1) with truthy block_data => {
      | true => process_fetched block_num block_data s1
      | false with lt_dec 3 retry_count => {
          | left _ =>
              logger ERROR (Retried_3_times_Skipping block_num) s1
          | right _
              with process_block block_num (S retry_count)
                     (emit (log ERROR
                              (Couldnt_read_the_block_Retrying block_num))
                        s1) => {
              (* the call does not end the caller: it goes on with its
                 own empty [block_data] *)
              | (Ret _, s2) => process_fetched block_num block_data s2
              | (Raise x, s2) => (Raise x, s2) } } } }.
Proof. clear process_block. destruct retry_count as [|[|[|[|k]]]]; lia. Qed.

(** [process_block] from the test of [block_data] on. *)
Definition after_get_block (block_num : Z) (retry_count : nat)
    (block_data : block_data) : M unit :=
  if negb (truthy block_data) then
    if (3 <? retry_count)%nat then
      logger ERROR (Retried_3_times_Skipping block_num)
    else
      logger ERROR (Couldnt_read_the_block_Retrying block_num) ;;;
      process_block block_num (S retry_count) ;;;
      process_fetched block_num block_data
  else process_fetched block_num block_data.

(** The defining equation of [process_block], in the shape of the
    source. *)
Lemma process_block_eq block_num retry_count s :
  process_block block_num retry_count s =
  (block_data <- ask (get_block block_num)
                   (fun t => steem_get_block e t block_num) ;;
   after_get_block block_num retry_count block_data) s.
Proof.
  rewrite process_block_equation_1.
  unfold after_get_block, ask, bind, logger, do_;
    cbn [process_block_unfold_clause_1].
  destruct (truthy _) eqn:Ht; [reflexivity|].
  cbn [negb process_block_unfold_clause_1_clause_2].
  destruct (lt_dec 3 retry_count) as [Hlt|Hge];
    destruct (Nat.ltb_spec 3 retry_count); try lia;
    cbn [process_block_unfold_clause_1_clause_2_clause_2]; [reflexivity|].
  destruct (process_block _ _ _) as [[u|x] s2]; reflexivity.
Qed.

(** The loops of [run].  The outer [while True] never ends, so a value of
    [run_loop fuel] is the run cut after [fuel] evaluations of the
    condition of the inner loop: [Ret last_block] says that the loop is
    still running, with this value of its variable.  When the condition
    holds the body of the inner loop follows; when it fails, the sleep
    of the outer loop, which then enters the inner loop again. *)
Fixpoint run_loop (fuel : nat) (last_block : Z) : M Z :=
  match fuel with
  | O => ret last_block
  | S fuel' =>
      head <- last_block_num ;;
      if 0 <? head - last_block then
        let last_block := last_block + 1 in
        process_block last_block 0 ;;;
        dump_checkpoint (Some last_block) ;;;
        run_loop fuel' last_block
      else
        (* Sleep for one block *)
        interval <- block_interval ;;
        logger INFO (Sleeping_for_seconds interval) ;;;
        do_ (sleep interval) ;;;
        run_loop fuel' last_block
  end.

Definition run (fuel : nat) (start_from : option Z) : M Z :=
  last_block <-
    match start_from with
    | None =>
        fallback_block_num <- last_block_num ;;
        last_block <- load_checkpoint (Some fallback_block_num) ;;
        logger INFO (Last_processed_block last_block) ;;;
        ret last_block
    | Some n => ret n
    end ;;
  run_loop fuel last_block.

Definition listen (fuel : nat) : M Z :=
  logger INFO Starting_TX_listener ;;;
  run fuel None.

End Listener.

(** ** Reading a trace

    The functions below read a list of events in the order of time,
    that is, the reverse of [trace]. *)

Definition history (s : State) : list event := rev (trace s).

(** The block numbers of the fetch attempts. *)
Fixpoint fetched (h : list event) : list Z :=
  match h with
  | [] => []
  | get_block n :: h' => n :: fetched h'
  | _ :: h' => fetched h'
  end.

(** The texts written to the checkpoint file. *)
Fixpoint checkpoints_written (h : list event) : list string :=
  match h with
  | [] => []
  | write_checkpoint text :: h' => text :: checkpoints_written h'
  | _ :: h' => checkpoints_written h'
  end.

Definition is_error (ev : event) : bool :=
  match ev with
  | log ERROR _ => true
  | _ => false
  end.

(** The replies and votes, the only actions on the chain. *)
Definition is_action (ev : event) : bool :=
  match ev with
  | reply _ _ _ | vote _ _ _ => true
  | _ => false
  end.

Definition actions (h : list event) : list event := filter is_action h.

(** The post an action is about. *)
Definition target (ev : event) : option identifier :=
  match ev with
  | reply parent _ _ => Some parent
  | vote id _ _ => Some id
  | _ => None
  end.

Definition identifier_eqb (a b : identifier) : bool :=
  String.eqb (fst a) (fst b) && String.eqb (snd a) (snd b).

Definition is_reply_to (id : identifier) (ev : event) : bool :=
  match ev with
  | reply parent _ _ => identifier_eqb parent id
  | _ => false
  end.

Definition is_vote_for (id : identifier) (ev : event) : bool :=
  match ev with
  | vote id' _ _ => identifier_eqb id' id
  | _ => false
  end.

(** The text of the checkpoint file, if there is one. *)
Definition checkpoint_file (s : State) : option string :=
  match CONFIG_PATH s with
  | Some d => CHECKPOINT d
  | None => None
  end.

(** Is there a row of the table [welcome] for this author? *)
Definition welcomed (a : string) (s : State) : bool :=
  existsb (fun r => String.eqb (row_author r) a) (welcome s).

(** [cp+1, cp+2, ..., cp+k] *)
Fixpoint Zseq (start : Z) (len : nat) : list Z :=
  match len with
  | O => []
  | S k => start :: Zseq (start + 1) k
  end.

(** ** Effects of a computation

    An [effect] relates the state before a computation, the events it
    performed (latest first) and the state after it.  A [Frame] is an
    effect that holds of doing nothing and of doing one thing after
    another, so that it is kept by every way of putting computations
    together. *)

Definition effect : Type := State -> list event -> State -> Prop.

Class Frame (P : effect) : Prop := {
  frame_nil : forall s, P s [] s;
  frame_app : forall s t1 s1 t2 s2,
    P s t1 s1 -> P s1 t2 s2 -> P s (t2 ++ t1) s2
}.

Definition keeps {A} (P : effect) (m : M A) : Prop :=
  forall s r s', m s = (r, s') ->
  exists t, trace s' = t ++ trace s /\ P s t s'.

Section Keeps.

Context (P : effect) {FP : Frame P}.

Lemma keeps_ret {A} (a : A) : keeps P (ret a).
Proof.
  intros s r s' [= <- <-]. exists []. split; [reflexivity|apply frame_nil].
Qed.

Lemma keeps_raise {A} (x : exn) : keeps P (@raise A x).
Proof.
  intros s r s' [= <- <-]. exists []. split; [reflexivity|apply frame_nil].
Qed.

Lemma keeps_bind {A B} (m : M A) (k : A -> M B) :
  keeps P m -> (forall a, keeps P (k a)) -> keeps P (bind m k).
Proof.
  intros Hm Hk s r s'. unfold bind.
  destruct (m s) as [[a|x] s1] eqn:E; destruct (Hm _ _ _ E) as (t1 & Ht1 & H1).
  - intros E2. destruct (Hk a _ _ _ E2) as (t2 & Ht2 & H2).
    exists (t2 ++ t1). split.
    + rewrite Ht2, Ht1. apply app_assoc.
    + eapply frame_app; eassumption.
  - intros [= <- <-]. exists t1. auto.
Qed.

Lemma keeps_try_except {A} (m : M A) handles (h : M A) :
  keeps P m -> keeps P h -> keeps P (try_except m handles h).
Proof.
  intros Hm Hh s r s'. unfold try_except.
  destruct (m s) as [[a|x] s1] eqn:E; destruct (Hm _ _ _ E) as (t1 & Ht1 & H1).
  - intros [= <- <-]. exists t1. auto.
  - destruct (handles x).
    + intros E2. destruct (Hh _ _ _ E2) as (t2 & Ht2 & H2).
      exists (t2 ++ t1). split.
      * rewrite Ht2, Ht1. apply app_assoc.
      * eapply frame_app; eassumption.
    + intros [= <- <-]. exists t1. auto.
Qed.

Lemma keeps_for_each {A} (f : A -> M unit) (l : list A) :
  (forall a, keeps P (f a)) -> keeps P (for_each f l).
Proof.
  intros Hf. induction l as [|a l IH]; simpl.
  - apply keeps_ret.
  - apply keeps_bind; auto.
Qed.

Lemma keeps_ext {A} (m m' : M A) :
  (forall s, m s = m' s) -> keeps P m' -> keeps P m.
Proof. intros E H s r s' Hm. rewrite E in Hm. eauto. Qed.

(** The events the effect admits. *)
Variable admits : event -> Prop.
Hypothesis P_emit : forall ev s, admits ev -> P s [ev] (emit ev s).

Lemma keeps_do ev : admits ev -> keeps P (do_ ev).
Proof.
  intros Hev s r s' [= <- <-]. exists [ev]. split; [reflexivity|auto].
Qed.

Lemma keeps_logger lvl m : admits (log lvl m) -> keeps P (logger lvl m).
Proof. apply keeps_do. Qed.

Lemma keeps_ask {A} ev (answer : nat -> A) :
  admits ev -> keeps P (ask ev answer).
Proof.
  intros Hev s r s' [= <- <-]. exists [ev]. split; [reflexivity|auto].
Qed.

Lemma keeps_pure {A} (f : State -> A) : keeps P (fun s => (Ret (f s), s)).
Proof.
  intros s r s' [= <- <-]. exists []. split; [reflexivity|apply frame_nil].
Qed.

Variable e : Env.

(** Of the events of [handle_command] and [process_block], the effect
    admits those that are no action on the chain, the fetch apart. *)
Hypothesis admits_node : forall ev,
  match ev with
  | get_block _ | write_checkpoint _ | makedirs
  | reply _ _ _ | vote _ _ _ => True
  | _ => admits ev
  end.

Hypothesis P_insert : forall r s, P s [] (set_welcome (welcome s ++ [r]) s).
Hypothesis P_write_state : forall data d s,
  CONFIG_PATH s = Some d ->
  P s [write_state data]
    (emit (write_state data)
       (set_dir (Some (mkDir (Some data) (CHECKPOINT d))) s)).

Lemma keeps_properties_from depth : keeps P (properties_from e depth).
Proof.
  induction depth as [|d IH]; simpl.
  - apply keeps_raise.
  - apply keeps_bind; [apply keeps_ask, (admits_node get_dynamic_global_properties)|].
    intros [p|]; [apply keeps_ret|].
    apply keeps_bind; [apply keeps_logger, (admits_node (log _ _))|auto].
Qed.

Lemma keeps_properties : keeps P (properties e).
Proof. apply keeps_properties_from. Qed.

Lemma keeps_Post id : keeps P (Post_ e id).
Proof.
  apply keeps_bind; [apply keeps_ask, (admits_node (Post_init _))|].
  intros [p|]; [apply keeps_ret|apply keeps_raise].
Qed.

Section Actions.

(** The effects that admit every reply and vote. *)
Hypothesis admits_action : forall ev, is_action ev = true -> admits ev.

Lemma keeps_upvote post : keeps P (upvote e post).
Proof.
  apply keeps_bind; [apply keeps_pure|].
  intros [r|]; [apply keeps_logger, (admits_node (log _ _))|].
  apply keeps_bind; [apply keeps_ask, admits_action; reflexivity|].
  intros [|]; simpl; [apply keeps_ret|apply keeps_logger, (admits_node (log _ _))].
Qed.

Lemma keeps_insert_welcome r : keeps P (insert_welcome r).
Proof.
  intros s x s' [= <- <-]. exists []. split; [reflexivity|apply P_insert].
Qed.

Lemma keeps_handle_command post : keeps P (handle_command e post).
Proof.
  unfold handle_command.
  destruct (existsb _ _); [apply keeps_logger, (admits_node (log _ _))|].
  destruct (Re.findall_welcome _ _); [apply keeps_ret|].
  apply keeps_bind; [apply keeps_Post|intros main_post].
  apply keeps_bind; [apply keeps_pure|].
  intros [w|]; [apply keeps_logger, (admits_node (log _ _))|].
  apply keeps_bind.
  { unfold read_welcome_message.
    destruct (welcome_message e); [apply keeps_ret|apply keeps_raise]. }
  intros text.
  apply keeps_bind; [apply keeps_do, admits_action; reflexivity|intros _].
  destruct (negb _); [apply keeps_logger, (admits_node (log _ _))|].
  apply keeps_bind; [apply keeps_upvote|intros _].
  apply keeps_bind; [apply keeps_logger, (admits_node (log _ _))|intros _].
  apply keeps_bind; [apply keeps_ask, (admits_node now_call)|intros stamp].
  apply keeps_insert_welcome.
Qed.

End Actions.

(** What follows holds of every effect that [handle_command] keeps. *)
Hypothesis keeps_command : forall post, keeps P (handle_command e post).

Lemma keeps_check_operation op : keeps P (check_operation e op).
Proof.
  unfold check_operation.
  destruct (String.eqb _ _); [|apply keeps_ret].
  apply keeps_bind.
  - apply keeps_try_except; [|apply keeps_ret].
    apply keeps_bind; [apply keeps_Post|intros p; apply keeps_ret].
  - intros [post|]; [|apply keeps_ret].
    destruct (is_main_post post); [apply keeps_ret|].
    destruct (PyStr.contains _ _); [apply keeps_command|apply keeps_ret].
Qed.

Lemma keeps_check_block n : keeps P (check_block e n).
Proof.
  apply keeps_bind; [apply keeps_ask, (admits_node (get_ops_in_block _))|].
  intros ops. apply keeps_for_each, keeps_check_operation.
Qed.

Lemma keeps_dump_state data : keeps P (dump_state data).
Proof.
  intros s r s'. unfold dump_state, write_file.
  destruct (CONFIG_PATH s) as [d|] eqn:E; intros [= <- <-].
  - exists [write_state data]. split; [reflexivity|]. apply P_write_state, E.
  - exists []. split; [reflexivity|apply frame_nil].
Qed.

Lemma keeps_process_fetched n block_data :
  keeps P (process_fetched e n block_data).
Proof.
  apply keeps_bind; [apply keeps_logger, (admits_node (log _ _))|intros _].
  apply keeps_bind.
  { destruct block_data; [apply keeps_raise|apply keeps_ret]. }
  intros [|]; [apply keeps_ret|].
  apply keeps_bind; [apply keeps_check_block|intros _].
  apply keeps_bind; [apply keeps_properties|intros p; apply keeps_dump_state].
Qed.

Lemma keeps_block_interval : keeps P (block_interval e).
Proof. apply keeps_ask, (admits_node get_config). Qed.

(** With the fetch admitted, [process_block] keeps the effect. *)
Lemma keeps_process_block n retry_count :
  admits (get_block n) -> keeps P (process_block e n retry_count).
Proof.
  intros Hn.
  remember (4 - retry_count)%nat as k eqn:Hk.
  revert retry_count Hk. induction k as [k IH] using lt_wf_ind.
  intros retry_count Hk.
  eapply keeps_ext; [intros s; apply process_block_eq|].
  apply keeps_bind; [apply keeps_ask, Hn|intros block_data].
  unfold after_get_block.
  destruct (negb _); [|apply keeps_process_fetched].
  destruct (Nat.ltb_spec 3 retry_count) as [Hlt|Hge].
  - apply keeps_logger, (admits_node (log _ _)).
  - apply keeps_bind; [apply keeps_logger, (admits_node (log _ _))|intros _].
    apply keeps_bind; [|intros _; apply keeps_process_fetched].
    apply (IH (4 - S retry_count)%nat); lia.
Qed.

Lemma keeps_after_get_block n retry_count block_data :
  admits (get_block n) ->
  keeps P (after_get_block e n retry_count block_data).
Proof.
  intros Hn. unfold after_get_block.
  destruct (negb _); [|apply keeps_process_fetched].
  destruct (3 <? retry_count)%nat.
  - apply keeps_logger, (admits_node (log _ _)).
  - apply keeps_bind; [apply keeps_logger, (admits_node (log _ _))|intros _].
    apply keeps_bind; [|intros _; apply keeps_process_fetched].
    apply keeps_process_block, Hn.
Qed.

End Keeps.

(** ** Three effects *)

Lemma fetched_app h1 h2 : fetched (h1 ++ h2) = fetched h1 ++ fetched h2.
Proof.
  induction h1 as [|ev h1 IH]; [reflexivity|].
  destruct ev; simpl; rewrite IH; reflexivity.
Qed.

Lemma checkpoints_written_app h1 h2 :
  checkpoints_written (h1 ++ h2) =
  checkpoints_written h1 ++ checkpoints_written h2.
Proof.
  induction h1 as [|ev h1 IH]; [reflexivity|].
  destruct ev; simpl; rewrite IH; reflexivity.
Qed.

(** The computation fetches only blocks that are [allowed] and leaves
    the checkpoint alone. *)
Definition calm (allowed : Z -> Prop) : effect := fun s t s' =>
  Forall allowed (fetched (rev t)) /\
  checkpoints_written (rev t) = [] /\
  checkpoint_file s' = checkpoint_file s /\
  (CONFIG_PATH s <> None -> CONFIG_PATH s' <> None).

Definition calm_admits (allowed : Z -> Prop) (ev : event) : Prop :=
  match ev with
  | get_block n => allowed n
  | write_checkpoint _ | makedirs => False
  | _ => True
  end.

#[export] Instance calm_Frame allowed : Frame (calm allowed).
Proof.
  split.
  - intros s. repeat split; auto.
  - intros s t1 s1 t2 s2 (F1 & W1 & C1 & D1) (F2 & W2 & C2 & D2).
    unfold calm.
    rewrite rev_app_distr, fetched_app, checkpoints_written_app, W1, W2.
    repeat split; auto.
    + apply Forall_app; auto.
    + congruence.
Qed.

Lemma calm_emit allowed ev s :
  calm_admits allowed ev -> calm allowed s [ev] (emit ev s).
Proof.
  intros H. unfold calm.
  destruct ev; simpl in *; try contradiction; repeat split; auto.
Qed.

Lemma calm_node allowed ev :
  match ev with
  | get_block _ | write_checkpoint _ | makedirs
  | reply _ _ _ | vote _ _ _ => True
  | _ => calm_admits allowed ev
  end.
Proof. destruct ev; exact I. Qed.

Lemma calm_insert allowed r s :
  calm allowed s [] (set_welcome (welcome s ++ [r]) s).
Proof. repeat split; auto. Qed.

Lemma calm_write_state allowed data d s :
  CONFIG_PATH s = Some d ->
  calm allowed s [write_state data]
    (emit (write_state data)
       (set_dir (Some (mkDir (Some data) (CHECKPOINT d))) s)).
Proof.
  intros E. unfold calm, checkpoint_file. simpl. rewrite E.
  repeat split; auto; discriminate.
Qed.

Lemma calm_action allowed ev : is_action ev = true -> calm_admits allowed ev.
Proof. destruct ev; simpl; auto; discriminate. Qed.

Lemma calm_handle_command allowed e post :
  keeps (calm allowed) (handle_command e post).
Proof.
  apply (keeps_handle_command _ (calm_admits allowed)).
  - apply calm_emit.
  - apply calm_node.
  - apply calm_insert.
  - apply calm_action.
Qed.

Lemma calm_properties allowed e : keeps (calm allowed) (properties e).
Proof.
  apply (keeps_properties _ (calm_admits allowed)).
  - apply calm_emit.
  - apply calm_node.
Qed.

Lemma calm_block_interval allowed e :
  keeps (calm allowed) (block_interval e).
Proof.
  apply (keeps_block_interval _ (calm_admits allowed)).
  - apply calm_emit.
  - apply calm_node.
Qed.

Lemma calm_process_fetched allowed e n block_data :
  keeps (calm allowed) (process_fetched e n block_data).
Proof.
  apply (keeps_process_fetched _ (calm_admits allowed)).
  - apply calm_emit.
  - apply calm_node.
  - apply calm_write_state.
  - apply calm_handle_command.
Qed.

Lemma calm_process_block e n retry_count :
  keeps (calm (eq n)) (process_block e n retry_count).
Proof.
  apply (keeps_process_block _ (calm_admits (eq n))).
  - apply calm_emit.
  - apply calm_node.
  - apply calm_write_state.
  - apply calm_handle_command.
  - reflexivity.
Qed.

(** The computation leaves the table [upvote] as it is. *)
Definition same_upvote_table : effect := fun s _ s' =>
  upvote_table s' = upvote_table s.

#[export] Instance same_upvote_table_Frame : Frame same_upvote_table.
Proof.
  split; unfold same_upvote_table.
  - reflexivity.
  - intros; congruence.
Qed.

Lemma upvote_table_handle_command e post :
  keeps same_upvote_table (handle_command e post).
Proof.
  apply (keeps_handle_command _ (fun _ => True)); try reflexivity;
    intros; try exact I.
  match goal with |- match ?ev with _ => _ end => destruct ev; exact I end.
Qed.

(** ** The command processor *)

Lemma find_welcomed a s :
  find (fun r => String.eqb (row_author r) a) (welcome s) = None <->
  welcomed a s = false.
Proof.
  unfold welcomed. induction (welcome s) as [|r l IH]; simpl.
  - tauto.
  - destruct (String.eqb (row_author r) a); simpl; [|exact IH].
    split; discriminate.
Qed.

Lemma blacklisted_In a l :
  existsb (String.eqb a) l = true <-> In a l.
Proof.
  rewrite existsb_exists. split.
  - intros (x & Hx & E). apply String.eqb_eq in E. subst. exact Hx.
  - intros H. exists a. split; [exact H|apply String.eqb_refl].
Qed.

(** What a state shows of the chain and of the tables. *)
Definition untouched (s s' : State) : Prop :=
  actions (history s') = actions (history s) /\
  welcome s' = welcome s /\
  upvote_table s' = upvote_table s.

Lemma untouched_refl s : untouched s s.
Proof. repeat split. Qed.

Lemma untouched_emit ev s s' :
  is_action ev = false -> untouched s s' -> untouched s (emit ev s').
Proof.
  intros Hev (Ha & Hw & Hu). unfold untouched, history, actions in *.
  simpl. rewrite filter_app. simpl. rewrite Hev, app_nil_r. auto.
Qed.

(** *** Blacklist *)

Lemma handle_command_blacklisted e post s :
  In (author post) (blacklisted_users e) ->
  handle_command e post s =
  (Ret tt, emit (log INFO (User_on_blacklist_Skipping (permlink post))) s).
Proof.
  intros H. unfold handle_command.
  apply blacklisted_In in H. rewrite H. reflexivity.
Qed.

(** *** The operations that reach the command processor *)

Lemma check_operation_cases e op s :
  let s1 := emit (Post_init (raw_data op)) s in
  (exists post,
      operation_type op = "comment" /\
      steem_post e (clock s) (raw_data op) = Some post /\
      is_main_post post = false /\
      PyStr.contains ("@" ++ account e)%string (body post) = true /\
      check_operation e op s = handle_command e post s1) \/
  (exists s', check_operation e op s = (Ret tt, s') /\ untouched s s').
Proof.
  intros s1. unfold check_operation.
  destruct (String.eqb_spec (operation_type op) "comment") as [Hc|Hc].
  2:{ right. exists s. split; [reflexivity|apply untouched_refl]. }
  unfold Post_, try_except, ask, ret, raise, bind.
  destruct (steem_post e (clock s) (raw_data op)) as [post|] eqn:Hp; simpl.
  2:{ right. exists s1. split; [reflexivity|].
      apply untouched_emit; [reflexivity|apply untouched_refl]. }
  destruct (is_main_post post) eqn:Hm.
  { right. exists s1. split; [reflexivity|].
    apply untouched_emit; [reflexivity|apply untouched_refl]. }
  destruct (PyStr.contains _ _) eqn:Hin.
  - left. exists post. auto.
  - right. exists s1. split; [reflexivity|].
    apply untouched_emit; [reflexivity|apply untouched_refl].
Qed.

(** *** The paths of [handle_command] past the blacklist

    [addressed e post] says that [handle_command] gets to the welcome
    command: the author is not on the blacklist and the pattern is found
    in the body. *)

Definition addressed (e : Env) (post : Post) : Prop :=
  existsb (String.eqb (author post)) (blacklisted_users e) = false /\
  Re.findall_welcome (account e) (body post) <> [].

Ltac enter_command H :=
  let Hb := fresh "Hb" in
  let Hm := fresh "Hm" in
  destruct H as [Hb Hm]; unfold handle_command; rewrite Hb;
  destruct (Re.findall_welcome _ _); [contradiction Hm; reflexivity|];
  unfold Post_, find_one_welcome, read_welcome_message, upvote,
    find_one_upvote, insert_welcome, logger, do_, ask, ret, raise, bind.

Lemma handle_command_missing_root e post s :
  addressed e post ->
  steem_post e (clock s) (root_identifier post) = None ->
  handle_command e post s =
  (Raise PostDoesNotExist, emit (Post_init (root_identifier post)) s).
Proof. intros H Hp. enter_command H. rewrite Hp. reflexivity. Qed.

Lemma handle_command_already_welcomed e post s main_post :
  addressed e post ->
  steem_post e (clock s) (root_identifier post) = Some main_post ->
  welcomed (author main_post) s = true ->
  handle_command e post s =
  (Ret tt,
   emit (log INFO (Already_welcomed_Skipping (author main_post)))
     (emit (Post_init (root_identifier post)) s)).
Proof.
  intros H Hp Hw. enter_command H. rewrite Hp. simpl.
  destruct (find _ (welcome s)) eqn:F; [reflexivity|].
  apply find_welcomed in F. congruence.
Qed.

Lemma handle_command_not_main_post e post s main_post text :
  addressed e post ->
  steem_post e (clock s) (root_identifier post) = Some main_post ->
  welcomed (author main_post) s = false ->
  welcome_message e = Some text ->
  is_main_post main_post = false ->
  handle_command e post s =
  (Ret tt,
   emit (log INFO Skipping_Not_a_main_post)
     (emit (reply (post_identifier main_post)
              (PyStr.replace "$username" (author main_post) text)
              (account e))
        (emit (Post_init (root_identifier post)) s))).
Proof.
  intros H Hp Hw Ht Hmain. enter_command H. rewrite Hp. simpl.
  apply find_welcomed in Hw. rewrite Hw, Ht, Hmain. reflexivity.
Qed.

(** The state after the reply to a main post that has no row in the
    table [upvote]: the vote is cast, and the row of the table [welcome]
    follows. *)
Lemma handle_command_main_post e post s main_post text :
  addressed e post ->
  steem_post e (clock s) (root_identifier post) = Some main_post ->
  welcomed (author main_post) s = false ->
  welcome_message e = Some text ->
  is_main_post main_post = true ->
  find (fun r => String.eqb (row_author r) (author main_post)
                 && String.eqb (row_permlink r) (permlink main_post))
       (upvote_table s) = None ->
  let s2 :=
    emit (vote (post_identifier main_post) 80 (account e))
      (emit (reply (post_identifier main_post)
               (PyStr.replace "$username" (author main_post) text)
               (account e))
         (emit (Post_init (root_identifier post)) s)) in
  let s3 :=
    if commit_vote e (S (S (clock s))) (post_identifier main_post)
    then s2
    else emit (log ERROR (Failed_upvoting (post_identifier main_post))) s2 in
  let s4 :=
    emit (log INFO (Replied_and_upvoted_user (author main_post))) s3 in
  handle_command e post s =
  (Ret tt,
   set_welcome
     (welcome s ++
      [mkRow (author main_post) (permlink main_post)
         (datetime_now e (clock s4))])
     (emit now_call s4)).
Proof.
  intros H Hp Hw Ht Hmain Hup. enter_command H. rewrite Hp. simpl.
  apply find_welcomed in Hw. rewrite Hw, Ht, Hmain. simpl. rewrite Hup.
  unfold clock. simpl.
  destruct (commit_vote e _ _); reflexivity.
Qed.

(** *** No action for a welcomed author

    Every reply and every vote of the computation is about a post whose
    author had no row in the table [welcome] when the computation
    started, and the authors with a row keep it. *)
Definition guarded : effect := fun s t s' =>
  (forall ev id, In ev t -> target ev = Some id ->
                 welcomed (fst id) s = false) /\
  (forall a, welcomed a s = true -> welcomed a s' = true).

#[export] Instance guarded_Frame : Frame guarded.
Proof.
  split.
  - intros s. split; [intros ev id []|auto].
  - intros s t1 s1 t2 s2 [A1 W1] [A2 W2]. split; [|auto].
    intros ev id Hin Ht. apply in_app_or in Hin. destruct Hin as [Hin|Hin].
    + specialize (A2 _ _ Hin Ht).
      destruct (welcomed (fst id) s) eqn:E; [|reflexivity].
      apply W1 in E. congruence.
    + eauto.
Qed.

Ltac events_before l base :=
  lazymatch l with
  | base => constr:(@nil event)
  | ?ev :: ?l' => let t := events_before l' base in constr:(ev :: t)
  end.

(** Gives the events of a goal [exists t, ev1 :: ... :: base = t ++ base
    /\ _]. *)
Ltac give_events :=
  lazymatch goal with
  | |- exists t, ?l = t ++ ?base /\ _ =>
      let t0 := events_before l base in
      exists t0; split; [reflexivity|]
  end.

Lemma welcomed_insert a r s s0 :
  welcomed a s = true ->
  welcomed a (set_welcome (welcome s ++ [r]) s0) = true.
Proof.
  unfold welcomed. simpl. rewrite existsb_app. intros ->. reflexivity.
Qed.

Lemma guarded_handle_command e post :
  keeps guarded (handle_command e post).
Proof.
  intros s r s'. unfold handle_command.
  destruct (existsb _ _).
  { intros [= <- <-]. cbn [trace emit]. give_events.
    split; [|auto]. intros ev id [<-|[]]; discriminate. }
  destruct (Re.findall_welcome _ _).
  { intros [= <- <-]. give_events. split; [intros ev id []|auto]. }
  unfold Post_, find_one_welcome, read_welcome_message, upvote,
    find_one_upvote, insert_welcome, logger, do_, ask, ret, raise, bind.
  destruct (steem_post e (clock s) _) as [main_post|]; cbn -[PyStr.replace].
  2:{ intros [= <- <-]. cbn [trace emit]. give_events.
      split; [|auto]. intros ev id [<-|[]]; discriminate. }
  destruct (find _ (welcome s)) eqn:F.
  { intros [= <- <-]. cbn [trace emit]. give_events.
    split; [|auto]. intros ev id [<-|[<-|[]]]; discriminate. }
  apply find_welcomed in F.
  destruct (welcome_message e) as [text|]; cbn -[PyStr.replace].
  2:{ intros [= <- <-]. cbn [trace emit]. give_events.
      split; [|auto]. intros ev id [<-|[]]; discriminate. }
  assert (Hid : forall ev id,
             target ev = Some id ->
             (target ev = None \/ target ev = Some (post_identifier main_post)) ->
             welcomed (fst id) s = false).
  { intros ev id Ht [Hn|Hs]; [congruence|].
    rewrite Hs in Ht. injection Ht as <-. exact F. }
  destruct (is_main_post main_post); cbn -[PyStr.replace].
  2:{ intros [= <- <-]. cbn [trace emit]. give_events.
      split; [|auto].
      intros ev id [<-|[<-|[<-|[]]]] Ht; apply (Hid _ _ Ht); cbn; auto. }
  destruct (find _ (upvote_table s)); cbn -[PyStr.replace].
  { intros [= <- <-]. cbn [trace emit set_welcome]. give_events.
    split; [|intros a; apply welcomed_insert].
    intros ev id [<-|[<-|[<-|[<-|[<-|[]]]]]] Ht;
      apply (Hid _ _ Ht); cbn; auto. }
  destruct (commit_vote e _ _); cbn -[PyStr.replace].
  - intros [= <- <-]. cbn [trace emit set_welcome]. give_events.
    split; [|intros a; apply welcomed_insert].
    intros ev id [<-|[<-|[<-|[<-|[<-|[]]]]]] Ht;
      apply (Hid _ _ Ht); cbn; auto.
  - intros [= <- <-]. cbn [trace emit set_welcome]. give_events.
    split; [|intros a; apply welcomed_insert].
    intros ev id [<-|[<-|[<-|[<-|[<-|[<-|[]]]]]]] Ht;
      apply (Hid _ _ Ht); cbn; auto.
Qed.

Lemma guarded_emit ev s : target ev = None -> guarded s [ev] (emit ev s).
Proof.
  intros H. split; [|auto].
  intros ev' id [<-|[]] Ht. congruence.
Qed.

Lemma guarded_check_block e n : keeps guarded (check_block e n).
Proof.
  apply (keeps_check_block _ (fun ev => target ev = None)).
  - apply guarded_emit.
  - intros ev. destruct ev; first [exact I|reflexivity].
  - apply guarded_handle_command.
Qed.

Lemma identifier_eqb_fst a b : identifier_eqb a b = true -> fst a = fst b.
Proof.
  unfold identifier_eqb. intros H. apply andb_prop in H.
  apply String.eqb_eq, H.
Qed.

(** Under [guarded], nothing is added for a post of a welcomed author. *)
Lemma guarded_filter (f : event -> bool) (id : identifier) s t s' :
  (forall ev, f ev = true ->
              exists id', target ev = Some id' /\ fst id' = fst id) ->
  guarded s t s' ->
  welcomed (fst id) s = true ->
  filter f (rev t) = [].
Proof.
  intros Hf [Hg _] Hw.
  destruct (filter f (rev t)) as [|ev l] eqn:E; [reflexivity|].
  assert (Hin : In ev (filter f (rev t))) by (rewrite E; left; reflexivity).
  apply filter_In in Hin. destruct Hin as [Hin Hev].
  apply in_rev in Hin.
  destruct (Hf _ Hev) as (id' & Ht & Hfst).
  specialize (Hg _ _ Hin Ht). congruence.
Qed.

(** ** The scenes used below

    The account [bot]; a main post of alice, a reply of carol to it that
    calls the welcome command, and replies of others. *)

Module Scene.

Definition alice_intro : Post :=
  mkPost "alice" "intro" "Hello, I am Alice." true ("alice", "intro").

Definition alice_second : Post :=
  mkPost "alice" "second" "My second post." true ("alice", "second").

Definition carol_reply : Post :=
  mkPost "carol" "re-intro" "hello @bot !welcome friend" false
    ("alice", "intro").

(** A reply of a blacklisted author. *)
Definition spam_reply : Post :=
  mkPost "spammer" "re-intro-2" "@bot !welcome" false ("alice", "intro").

(** A reply whose root identifier leads to a reply. *)
Definition dave_reply : Post :=
  mkPost "dave" "re-re-intro" "@bot !welcome" false ("carol", "re-intro").

(** A reply whose root post is gone. *)
Definition erin_reply : Post :=
  mkPost "erin" "re-gone" "@bot !welcome" false ("ghost", "gone").

(** A reply under the second post of alice. *)
Definition frank_reply : Post :=
  mkPost "frank" "re-second" "@bot !welcome" false ("alice", "second").

(** A main post that calls the welcome command itself. *)
Definition grace_post : Post :=
  mkPost "grace" "hello" "hello, @bot !welcome me" true ("grace", "hello").

Definition posts : list Post :=
  [alice_intro; alice_second; carol_reply; spam_reply; dave_reply;
   erin_reply; frank_reply; grace_post].

Definition chain (id : identifier) : option Post :=
  find (fun p => identifier_eqb (post_identifier p) id) posts.

Definition comment (p : Post) : operation :=
  mkOp "comment" (post_identifier p).

(** The same chain, where every other identifier leads to a main post
    with an empty body. *)
Definition settled (id : identifier) : option Post :=
  match chain id with
  | Some p => Some p
  | None => Some (mkPost (fst id) (snd id) "" true id)
  end.

(** The node: the head is at 100, the answer to [get_block] is
    [block], and block 98 holds the operations [ops]. *)
Definition node_with (lookup : identifier -> option Post)
    (ops : list operation) (block : Z -> block_data) : Env :=
  mkEnv "bot" ["spammer"] (Some "Welcome $username!")
    (fun _ => block)
    (fun _ => Some (mkProps 100 "2018-01-01T00:00:00"))
    (fun _ => 3)
    (fun _ n => if n =? 98 then ops else [])
    (fun _ => lookup)
    (fun _ _ => true)
    (fun _ => "2018-01-01 00:00:00")
    1000.

Definition node : list operation -> (Z -> block_data) -> Env :=
  node_with chain.

(** Every block is there; block 96 is never there; block 96 is an
    empty dictionary. *)
Definition missing_96 (n : Z) : block_data :=
  if n =? 96 then PyNone else Dict ["transactions"].

Definition empty_96 (n : Z) : block_data :=
  if n =? 96 then Dict [] else Dict ["transactions"].

Definition full (n : Z) : block_data := Dict ["transactions"].

(** The directory with the checkpoint 95, and empty tables. *)
Definition at_95 : State :=
  mkState [] (Some (mkDir None (Some "95"))) [] [].

(** No directory yet. *)
Definition nothing : State := mkState [] None [] [].

(** The same with a row for alice in the table [welcome]. *)
Definition alice_welcomed : State :=
  mkState [] (Some (mkDir None (Some "95")))
    [mkRow "alice" "intro" "2018-01-01 00:00:00"] [].

End Scene.

(** ** Properties of the command processor *)

(** C3, as the specification has it: with the account [bot] the pattern
    is found in ["hello @bot !welcome friend"] and in ["@bot!welcome"]
    and is not found in ["@bot welcome"]. *)
Definition pattern_with_optional_whitespace : Prop :=
  Re.findall_welcome "bot" "hello @bot !welcome friend" <> [] /\
  Re.findall_welcome "bot" "@bot!welcome" <> [] /\
  Re.findall_welcome "bot" "@bot welcome" = [].

(** C3, counterexample: the pattern is not found in ["@bot!welcome"],
    since [\s] asks for one whitespace character between the mention and
    the exclamation mark. *)
Lemma pattern_needs_whitespace : ~ pattern_with_optional_whitespace.
Proof. intros (_ & H & _). apply H. reflexivity. Qed.

(** C3, amended: with the account [bot] the pattern is found once in
    ["hello @bot !welcome friend"], and is found neither in
    ["@bot!welcome"] nor in ["@bot welcome"]. *)
Theorem pattern_match_examples :
  Re.findall_welcome "bot" "hello @bot !welcome friend" = ["welcome"] /\
  Re.findall_welcome "bot" "@bot!welcome" = [] /\
  Re.findall_welcome "bot" "@bot welcome" = [].
Proof. repeat split. Qed.

(** C9: a comment whose author is on the blacklist is processed without
    a reply, without a vote and without a row in either table. *)
Theorem blacklisted_author_no_side_effects e op s post :
  operation_type op = "comment" ->
  steem_post e (clock s) (raw_data op) = Some post ->
  In (author post) (blacklisted_users e) ->
  exists s', check_operation e op s = (Ret tt, s') /\ untouched s s'.
Proof.
  intros Hc Hp Hb.
  destruct (check_operation_cases e op s)
    as [(post' & _ & Hp' & _ & _ & ->)|H]; [|exact H].
  assert (post' = post) as -> by congruence.
  rewrite (handle_command_blacklisted _ _ _ Hb).
  eexists. split; [reflexivity|].
  do 2 (apply untouched_emit; [reflexivity|]). apply untouched_refl.
Qed.

Lemma blacklisted_author_no_side_effects_witness :
  exists s',
    check_operation (Scene.node [] Scene.full)
      (Scene.comment Scene.spam_reply) Scene.at_95 = (Ret tt, s') /\
    untouched Scene.at_95 s'.
Proof.
  apply (blacklisted_author_no_side_effects _ _ _ Scene.spam_reply).
  - reflexivity.
  - reflexivity.
  - simpl. left. reflexivity.
Defined.

(** C10: a comment operation that is a main post is processed without
    any effect on the chain or the tables, and an operation reaches
    [handle_command] only when it is a comment, its post is a reply and
    the body of the post contains ["@" + account]. *)
Theorem main_post_never_handled e op s :
  (forall post,
      steem_post e (clock s) (raw_data op) = Some post ->
      is_main_post post = true ->
      exists s', check_operation e op s = (Ret tt, s') /\ untouched s s') /\
  ((exists post,
       operation_type op = "comment" /\
       steem_post e (clock s) (raw_data op) = Some post /\
       is_main_post post = false /\
       PyStr.contains ("@" ++ account e)%string (body post) = true /\
       check_operation e op s =
       handle_command e post (emit (Post_init (raw_data op)) s)) \/
   (exists s', check_operation e op s = (Ret tt, s') /\ untouched s s')).
Proof.
  split; [|apply check_operation_cases].
  intros post Hp Hmain.
  destruct (check_operation_cases e op s)
    as [(post' & _ & Hp' & Hmain' & _)|H]; [|exact H].
  congruence.
Qed.

Lemma main_post_never_handled_witness :
  let e := Scene.node [] Scene.full in
  (* the main post of grace mentions the account and holds the command,
     and [handle_command], were it called, would reply and vote *)
  PyStr.contains "@bot" (body Scene.grace_post) = true /\
  Re.findall_welcome "bot" (body Scene.grace_post) = ["welcome"] /\
  actions (history (snd (handle_command e Scene.grace_post Scene.at_95))) =
  [reply ("grace", "hello") "Welcome grace!" "bot";
   vote ("grace", "hello") 80 "bot"] /\
  exists s',
    check_operation e (Scene.comment Scene.grace_post) Scene.at_95 =
    (Ret tt, s') /\
    untouched Scene.at_95 s'.
Proof.
  intros e. split; [reflexivity|]. split; [reflexivity|].
  split; [reflexivity|].
  apply (proj1 (main_post_never_handled e
                  (Scene.comment Scene.grace_post) Scene.at_95)
           Scene.grace_post).
  - reflexivity.
  - reflexivity.
Defined.

(** C7: when the author of the command is not on the blacklist, the
    author of the subject has no row in [welcome] and the subject is not
    a main post, the reply is made from the template and sent, and the
    command ends there: no vote, no row in [welcome]. *)
Theorem reply_to_non_root_subject e post s main_post text :
  addressed e post ->
  steem_post e (clock s) (root_identifier post) = Some main_post ->
  welcomed (author main_post) s = false ->
  welcome_message e = Some text ->
  is_main_post main_post = false ->
  exists s',
    handle_command e post s = (Ret tt, s') /\
    history s' =
    history s ++
    [Post_init (root_identifier post);
     reply (post_identifier main_post)
       (PyStr.replace "$username" (author main_post) text) (account e);
     log INFO Skipping_Not_a_main_post] /\
    welcome s' = welcome s /\
    upvote_table s' = upvote_table s.
Proof.
  intros H Hp Hw Ht Hmain.
  rewrite (handle_command_not_main_post _ _ _ _ _ H Hp Hw Ht Hmain).
  eexists. split; [reflexivity|]. unfold history. simpl.
  repeat rewrite <- app_assoc. auto.
Qed.

Lemma reply_to_non_root_subject_witness :
  exists s',
    handle_command (Scene.node [] Scene.full) Scene.dave_reply Scene.at_95 =
    (Ret tt, s') /\
    history s' =
    [Post_init ("carol", "re-intro");
     reply ("carol", "re-intro") "Welcome carol!" "bot";
     log INFO Skipping_Not_a_main_post] /\
    welcome s' = [] /\
    upvote_table s' = [].
Proof.
  apply (reply_to_non_root_subject (Scene.node [] Scene.full)
           Scene.dave_reply Scene.at_95 Scene.carol_reply
           "Welcome $username!").
  - split; [reflexivity|discriminate].
  - reflexivity.
  - reflexivity.
  - reflexivity.
  - reflexivity.
Defined.

(** C8, as the specification has it: rows of [welcome] for other posts
    of the author do not count; as long as there is no row for the
    author and the permlink of the subject, the command is not taken as
    handled and the reply is sent. *)
Definition welcome_keyed_by_author_and_permlink : Prop :=
  forall e post s main_post text,
    addressed e post ->
    steem_post e (clock s) (root_identifier post) = Some main_post ->
    welcome_message e = Some text ->
    (forall r, In r (welcome s) ->
               ~ (row_author r = author main_post /\
                  row_permlink r = permlink main_post)) ->
    exists text',
      In (reply (post_identifier main_post) text' (account e))
         (trace (snd (handle_command e post s))).

(** C8, counterexample: alice has a row for her post [intro]; a welcome
    command under her post [second] is skipped as already welcomed. *)
Lemma welcome_not_keyed_by_permlink : ~ welcome_keyed_by_author_and_permlink.
Proof.
  intros H.
  destruct (H (Scene.node [] Scene.full) Scene.frank_reply
              Scene.alice_welcomed Scene.alice_second "Welcome $username!")
    as (text' & Hin).
  - split; [reflexivity|discriminate].
  - reflexivity.
  - reflexivity.
  - intros r [<-|[]] [_ Hp]. discriminate Hp.
  - vm_compute in Hin. destruct Hin as [Hin|[Hin|[]]]; discriminate Hin.
Qed.

(** C8, amended: the decision is keyed by the author of the subject
    alone.  A row of [welcome] with this author, whatever its permlink,
    ends the command: it is logged as already welcomed, and there is no
    reply, no vote and no new row. *)
Theorem welcome_keyed_by_author e post s main_post r :
  addressed e post ->
  steem_post e (clock s) (root_identifier post) = Some main_post ->
  In r (welcome s) ->
  row_author r = author main_post ->
  exists s',
    handle_command e post s = (Ret tt, s') /\
    history s' =
    history s ++
    [Post_init (root_identifier post);
     log INFO (Already_welcomed_Skipping (author main_post))] /\
    untouched s s'.
Proof.
  intros H Hp Hin Hr.
  assert (Hw : welcomed (author main_post) s = true).
  { unfold welcomed. apply existsb_exists. exists r. split; [exact Hin|].
    rewrite Hr. apply String.eqb_refl. }
  rewrite (handle_command_already_welcomed _ _ _ _ H Hp Hw).
  eexists. split; [reflexivity|]. split.
  - unfold history. simpl. rewrite <- app_assoc. reflexivity.
  - do 2 (apply untouched_emit; [reflexivity|]). apply untouched_refl.
Qed.

Lemma welcome_keyed_by_author_witness :
  exists s',
    handle_command (Scene.node [] Scene.full) Scene.frank_reply
      Scene.alice_welcomed = (Ret tt, s') /\
    history s' =
    [Post_init ("alice", "second");
     log INFO (Already_welcomed_Skipping "alice")] /\
    untouched Scene.alice_welcomed s'.
Proof.
  apply (welcome_keyed_by_author (Scene.node [] Scene.full)
           Scene.frank_reply Scene.alice_welcomed Scene.alice_second
           (mkRow "alice" "intro" "2018-01-01 00:00:00")).
  - split; [reflexivity|discriminate].
  - reflexivity.
  - simpl. left. reflexivity.
  - reflexivity.
Defined.

(** C4: [handle_command] never changes the table [upvote].  In the
    scene, the command of carol under the main post of alice is handled
    with a successful vote: the row of [welcome] is written, the table
    [upvote] stays empty, and the upvote step run again for the same
    post votes a second time. *)
Theorem upvote_row_never_written :
  (forall e post s,
      upvote_table (snd (handle_command e post s)) = upvote_table s) /\
  let e := Scene.node [] Scene.full in
  let s1 := snd (handle_command e Scene.carol_reply Scene.at_95) in
  let s2 := snd (upvote e Scene.alice_intro s1) in
  history s1 =
  [Post_init ("alice", "intro");
   reply ("alice", "intro") "Welcome alice!" "bot";
   vote ("alice", "intro") 80 "bot";
   log INFO (Replied_and_upvoted_user "alice");
   now_call] /\
  welcome s1 = [mkRow "alice" "intro" "2018-01-01 00:00:00"] /\
  upvote_table s1 = [] /\
  history s2 = history s1 ++ [vote ("alice", "intro") 80 "bot"].
Proof.
  split.
  - intros e post s.
    destruct (handle_command e post s) as [r s'] eqn:E.
    destruct (upvote_table_handle_command e post _ _ _ E) as (t & _ & H).
    exact H.
  - vm_compute. repeat split.
Qed.

(** C5: once the table [welcome] has a row for the author of a post,
    processing the block again adds no reply to this post and no vote
    for it. *)
Theorem reprocessing_adds_no_action e block_num s id :
  let s1 := snd (check_block e block_num s) in
  let s2 := snd (check_block e block_num s1) in
  welcomed (fst id) s1 = true ->
  filter (is_reply_to id) (history s2) = filter (is_reply_to id) (history s1)
  /\
  filter (is_vote_for id) (history s2) = filter (is_vote_for id) (history s1).
Proof.
  intros s1 s2 Hw. subst s2.
  destruct (check_block e block_num s1) as [r s2] eqn:E.
  destruct (guarded_check_block e block_num _ _ _ E) as (t & Ht & Hg).
  assert (Hr : filter (is_reply_to id) (rev t) = []).
  { apply (guarded_filter (is_reply_to id) id s1 t s2); [|exact Hg|exact Hw].
    intros ev Hev. destruct ev; try discriminate Hev.
    eexists. split; [reflexivity|apply identifier_eqb_fst, Hev]. }
  assert (Hv : filter (is_vote_for id) (rev t) = []).
  { apply (guarded_filter (is_vote_for id) id s1 t s2); [|exact Hg|exact Hw].
    intros ev Hev. destruct ev; try discriminate Hev.
    eexists. split; [reflexivity|apply identifier_eqb_fst, Hev]. }
  unfold history. simpl snd.
  rewrite Ht, rev_app_distr, !filter_app, Hr, Hv, !app_nil_r. auto.
Qed.

Lemma reprocessing_adds_no_action_witness :
  let e := Scene.node [Scene.comment Scene.carol_reply] Scene.full in
  let s1 := snd (check_block e 98 Scene.at_95) in
  let s2 := snd (check_block e 98 s1) in
  filter (is_reply_to ("alice", "intro")) (history s1) =
  [reply ("alice", "intro") "Welcome alice!" "bot"] /\
  filter (is_vote_for ("alice", "intro")) (history s1) =
  [vote ("alice", "intro") 80 "bot"] /\
  filter (is_reply_to ("alice", "intro")) (history s2) =
  filter (is_reply_to ("alice", "intro")) (history s1) /\
  filter (is_vote_for ("alice", "intro")) (history s2) =
  filter (is_vote_for ("alice", "intro")) (history s1).
Proof.
  intros e s1 s2.
  split; [reflexivity|]. split; [reflexivity|].
  apply (reprocessing_adds_no_action e 98 Scene.at_95 ("alice", "intro")).
  reflexivity.
Defined.

(** ** Computations that return

    [succeeds m]: where the configuration directory exists, [m] returns
    a value and leaves the directory in place. *)

Definition succeeds {A} (m : M A) : Prop :=
  forall s, CONFIG_PATH s <> None ->
  exists a s', m s = (Ret a, s') /\ CONFIG_PATH s' <> None.

Lemma succeeds_ret {A} (a : A) : succeeds (ret a).
Proof. intros s H. exists a, s. auto. Qed.

Lemma succeeds_bind {A B} (m : M A) (k : A -> M B) :
  succeeds m -> (forall a, succeeds (k a)) -> succeeds (bind m k).
Proof.
  intros Hm Hk s H. unfold bind.
  destruct (Hm s H) as (a & s1 & -> & H1). apply Hk, H1.
Qed.

Lemma succeeds_try_except {A} (m : M A) handles (h : M A) :
  succeeds m -> succeeds (try_except m handles h).
Proof.
  intros Hm s H. unfold try_except.
  destruct (Hm s H) as (a & s1 & -> & H1). eauto.
Qed.

Lemma succeeds_for_each {A} (f : A -> M unit) (l : list A) :
  (forall a, succeeds (f a)) -> succeeds (for_each f l).
Proof.
  intros Hf. induction l as [|a l IH]; simpl.
  - apply succeeds_ret.
  - apply succeeds_bind; auto.
Qed.

Lemma succeeds_do ev : succeeds (do_ ev).
Proof. intros s H. exists tt, (emit ev s). auto. Qed.

Lemma succeeds_ask {A} ev (answer : nat -> A) : succeeds (ask ev answer).
Proof. intros s H. exists (answer (clock s)), (emit ev s). auto. Qed.

Lemma succeeds_pure {A} (f : State -> A) :
  succeeds (fun s => (Ret (f s), s)).
Proof. intros s H. exists (f s), s. auto. Qed.

Lemma succeeds_dump_state data : succeeds (dump_state data).
Proof.
  intros s H. unfold dump_state, write_file.
  destruct (CONFIG_PATH s) as [d|]; [|contradiction].
  eexists _, _. split; [reflexivity|]. simpl. discriminate.
Qed.

Lemma succeeds_dump_checkpoint n : succeeds (dump_checkpoint n).
Proof.
  intros s H. unfold dump_checkpoint, write_file.
  destruct (CONFIG_PATH s) as [d|]; [|contradiction].
  eexists _, _. split; [reflexivity|]. simpl. discriminate.
Qed.

Section Succeeds.

Variable e : Env.

(** The node answers, the posts exist and the template can be read. *)
Hypothesis node_answers :
  forall t, steem_get_dynamic_global_properties e t <> None.
Hypothesis may_recurse : recursion_limit e <> O.
Hypothesis posts_exist : forall t id, steem_post e t id <> None.
Hypothesis template_exists : welcome_message e <> None.

Lemma succeeds_properties : succeeds (properties e).
Proof.
  unfold properties. destruct (recursion_limit e) as [|d]; [contradiction|].
  intros s H. simpl. unfold bind, ask.
  destruct (steem_get_dynamic_global_properties e (clock s)) as [p|] eqn:E.
  - exists p, (emit get_dynamic_global_properties s). auto.
  - destruct (node_answers _ E).
Qed.

Lemma succeeds_Post id : succeeds (Post_ e id).
Proof.
  intros s H. unfold Post_, bind, ask.
  destruct (steem_post e (clock s) id) as [p|] eqn:E.
  - exists p, (emit (Post_init id) s). auto.
  - destruct (posts_exist _ _ E).
Qed.

Lemma succeeds_upvote post : succeeds (upvote e post).
Proof.
  apply succeeds_bind; [apply succeeds_pure|].
  intros [r|]; [apply succeeds_do|].
  apply succeeds_bind; [apply succeeds_ask|].
  intros [|]; simpl; [apply succeeds_ret|apply succeeds_do].
Qed.

Lemma succeeds_handle_command post : succeeds (handle_command e post).
Proof.
  unfold handle_command.
  destruct (existsb _ _); [apply succeeds_do|].
  destruct (Re.findall_welcome _ _); [apply succeeds_ret|].
  apply succeeds_bind; [apply succeeds_Post|intros main_post].
  apply succeeds_bind; [apply succeeds_pure|].
  intros [w|]; [apply succeeds_do|].
  unfold read_welcome_message.
  destruct (welcome_message e) as [text|]; [|contradiction].
  apply succeeds_bind; [apply succeeds_ret|intros text'].
  apply succeeds_bind; [apply succeeds_do|intros _].
  destruct (negb _); [apply succeeds_do|].
  apply succeeds_bind; [apply succeeds_upvote|intros _].
  apply succeeds_bind; [apply succeeds_do|intros _].
  apply succeeds_bind; [apply succeeds_ask|intros stamp].
  intros s0 H. eexists _, _. split; [reflexivity|exact H].
Qed.

Lemma succeeds_check_operation op : succeeds (check_operation e op).
Proof.
  unfold check_operation.
  destruct (String.eqb _ _); [|apply succeeds_ret].
  apply succeeds_bind.
  - apply succeeds_try_except.
    apply succeeds_bind; [apply succeeds_Post|intros p; apply succeeds_ret].
  - intros [post|]; [|apply succeeds_ret].
    destruct (is_main_post post); [apply succeeds_ret|].
    destruct (PyStr.contains _ _);
      [apply succeeds_handle_command|apply succeeds_ret].
Qed.

Lemma succeeds_check_block n : succeeds (check_block e n).
Proof.
  apply succeeds_bind; [apply succeeds_ask|].
  intros ops. apply succeeds_for_each, succeeds_check_operation.
Qed.

Lemma succeeds_process_fetched n block_data :
  truthy block_data = true -> succeeds (process_fetched e n block_data).
Proof.
  intros Ht. destruct block_data as [|keys]; [discriminate|].
  apply succeeds_bind; [apply succeeds_do|intros _].
  apply succeeds_bind; [apply succeeds_ret|].
  intros [|]; [apply succeeds_ret|].
  apply succeeds_bind; [apply succeeds_check_block|intros _].
  apply succeeds_bind; [apply succeeds_properties|intros p].
  apply succeeds_dump_state.
Qed.

End Succeeds.

(** ** The ingestion loop *)

Lemma calm_after_get_block e n retry_count block_data :
  keeps (calm (eq n)) (after_get_block e n retry_count block_data).
Proof.
  apply (keeps_after_get_block _ (calm_admits (eq n))).
  - apply calm_emit.
  - apply calm_node.
  - apply calm_write_state.
  - apply calm_handle_command.
  - reflexivity.
Qed.

Lemma Forall_eq_repeat (n : Z) l :
  Forall (eq n) l -> l = repeat n (List.length l).
Proof.
  induction 1 as [|x l Hx _ IH]; simpl; [reflexivity|].
  rewrite <- Hx, <- IH. reflexivity.
Qed.

Lemma Forall_False_nil {A} (l : list A) : Forall (fun _ => False) l -> l = [].
Proof. destruct 1; [reflexivity|contradiction]. Qed.

(** A call of [process_block] fetches its block, once or more, and no
    other; it does not write the checkpoint. *)
Lemma process_block_fetches e n retry_count s r s' :
  process_block e n retry_count s = (r, s') ->
  exists t c,
    trace s' = t ++ trace s /\
    fetched (rev t) = repeat n (S c) /\
    checkpoints_written (rev t) = [] /\
    checkpoint_file s' = checkpoint_file s /\
    (CONFIG_PATH s <> None -> CONFIG_PATH s' <> None).
Proof.
  rewrite process_block_eq. unfold bind at 1, ask at 1. intros H.
  destruct (calm_after_get_block _ _ _ _ _ _ _ H) as (t & Ht & F & W & C & D).
  exists (t ++ [get_block n]), (List.length (fetched (rev t))).
  rewrite rev_app_distr. simpl.
  rewrite <- (Forall_eq_repeat _ _ F), <- app_assoc.
  repeat split; auto.
Qed.

(** The blocks [start], [start+1], ... in this order, the i-th of them
    [S c] times when [c] is the i-th number of [again]. *)
Fixpoint blocks (start : Z) (again : list nat) : list Z :=
  match again with
  | [] => []
  | c :: rest => repeat start (S c) ++ blocks (start + 1) rest
  end.

(** The checkpoint after [k] blocks. *)
Definition checkpoint_after (before : option string) (last_block : Z)
    (k : nat) : option string :=
  match k with
  | O => before
  | S _ => Some (PyStr.str (last_block + Z.of_nat k))
  end.

(** What a run of the loop from [last_block] does: it fetches the
    blocks after [last_block] in ascending order, and writes their
    numbers to the checkpoint file one after the other. *)
Definition advances (last_block : Z) (s : State) (r : result Z)
    (s' : State) : Prop :=
  exists t k again,
    trace s' = t ++ trace s /\
    fetched (rev t) = blocks (last_block + 1) again /\
    (List.length again = k \/ List.length again = S k) /\
    checkpoints_written (rev t) =
    map PyStr.str (Zseq (last_block + 1) k) /\
    checkpoint_file s' =
    checkpoint_after (checkpoint_file s) last_block k /\
    (forall x, r = Ret x -> x = last_block + Z.of_nat k).

Lemma advances_nothing last_block s r s' t :
  trace s' = t ++ trace s ->
  calm (fun _ => False) s t s' ->
  (forall x, r = Ret x -> x = last_block) ->
  advances last_block s r s'.
Proof.
  intros Ht (F & W & C & _) Hr. exists t, O, [].
  rewrite (Forall_False_nil _ F), W. simpl.
  repeat split; auto.
  intros x Hx. rewrite (Hr x Hx). lia.
Qed.

(** Something calm, then a run. *)
Lemma advances_after_calm last_block s t1 s1 r s' :
  trace s1 = t1 ++ trace s ->
  calm (fun _ => False) s t1 s1 ->
  advances last_block s1 r s' ->
  advances last_block s r s'.
Proof.
  intros Ht1 (F1 & W1 & C1 & _) (t & k & again & Ht & F & L & W & C & R).
  exists (t ++ t1), k, again.
  rewrite rev_app_distr, fetched_app, checkpoints_written_app,
    (Forall_False_nil _ F1), W1. simpl.
  repeat split; auto.
  - rewrite Ht, Ht1. apply app_assoc.
  - rewrite C, C1. reflexivity.
Qed.

Lemma calm_last_block_num allowed e :
  keeps (calm allowed) (last_block_num e).
Proof.
  apply (keeps_bind (calm allowed)).
  - apply calm_properties.
  - intros p. apply keeps_ret; exact _.
Qed.

(** One block, its checkpoint, then a run from there. *)
Lemma advances_one_block last_block s t1 c s1 d r s' :
  trace s1 = t1 ++ trace s ->
  fetched (rev t1) = repeat (last_block + 1) (S c) ->
  checkpoints_written (rev t1) = [] ->
  CONFIG_PATH s1 = Some d ->
  advances (last_block + 1)
    (emit (write_checkpoint (PyStr.str (last_block + 1)))
       (set_dir
          (Some (mkDir (STATE d) (Some (PyStr.str (last_block + 1))))) s1))
    r s' ->
  advances last_block s r s'.
Proof.
  intros Ht1 F1 W1 Hd (t & k & again & Ht & F & L & W & C & R).
  exists (t ++ write_checkpoint (PyStr.str (last_block + 1)) :: t1),
    (S k), (c :: again).
  assert (Hrev : rev (t ++ write_checkpoint (PyStr.str (last_block + 1))
                         :: t1) =
                 rev t1 ++ [write_checkpoint (PyStr.str (last_block + 1))]
                 ++ rev t).
  { rewrite rev_app_distr. simpl. rewrite <- app_assoc. reflexivity. }
  rewrite Hrev, !fetched_app, !checkpoints_written_app, F1, W1, F, W.
  split; [|split; [|split; [|split; [|split]]]].
  - rewrite Ht. simpl. rewrite Ht1, <- app_assoc. reflexivity.
  - simpl. reflexivity.
  - simpl. lia.
  - reflexivity.
  - rewrite C. unfold checkpoint_after, checkpoint_file. simpl.
    destruct k; f_equal; f_equal; lia.
  - intros x Hx. rewrite (R x Hx). lia.
Qed.

(** The block that was being processed when the run ended. *)
Lemma advances_unfinished last_block s t1 c s1 (x : exn) :
  trace s1 = t1 ++ trace s ->
  fetched (rev t1) = repeat (last_block + 1) (S c) ->
  checkpoints_written (rev t1) = [] ->
  checkpoint_file s1 = checkpoint_file s ->
  advances last_block s (Raise x) s1.
Proof.
  intros Ht1 F1 W1 C1. exists t1, O, [c].
  rewrite F1, W1. simpl. rewrite app_nil_r.
  repeat split; auto. intros y [=].
Qed.

Lemma run_loop_advances e fuel :
  forall last_block s r s',
    run_loop e fuel last_block s = (r, s') -> advances last_block s r s'.
Proof.
  induction fuel as [|fuel IH]; intros last_block s r s' H.
  - injection H as <- <-.
    apply (advances_nothing _ _ _ _ []); [reflexivity|apply frame_nil|].
    intros x [= <-]. reflexivity.
  - simpl in H. unfold bind at 1 in H.
    destruct (last_block_num e s) as [[head|x] s0] eqn:E0;
      destruct (calm_last_block_num (fun _ => False) _ _ _ _ E0)
        as (t0 & Ht0 & C0).
    2:{ injection H as <- <-.
        apply (advances_nothing _ _ _ _ t0); auto. intros y [=]. }
    apply (advances_after_calm _ _ t0 s0); auto.
    destruct (0 <? head - last_block).
    + unfold bind at 1 in H.
      destruct (process_block e (last_block + 1) 0 s0) as [[u|x] s1] eqn:E1;
        destruct (process_block_fetches _ _ _ _ _ _ E1)
          as (t1 & c & Ht1 & F1 & W1 & C1 & D1).
      2:{ injection H as <- <-. apply (advances_unfinished _ _ t1 c); auto. }
      unfold bind at 1, dump_checkpoint, write_file in H.
      destruct (CONFIG_PATH s1) as [d|] eqn:Ed.
      * apply (advances_one_block _ _ t1 c s1 d); auto.
      * injection H as <- <-. apply (advances_unfinished _ _ t1 c); auto.
    + unfold bind, block_interval, ask, logger, do_ in H.
      apply IH in H. revert H.
      apply (advances_after_calm _ _
               [sleep (steem_block_interval e (clock s0));
                log INFO
                  (Sleeping_for_seconds (steem_block_interval e (clock s0)));
                get_config]); [reflexivity|].
      repeat split; auto.
Qed.

(** ** The checkpoint text is read back as written *)

Module PyStrFacts.

Fixpoint no_space (s : string) : bool :=
  match s with
  | EmptyString => true
  | String c r => negb (PyStr.isspace c) && no_space r
  end.

Lemma rstrip_no_space s : no_space s = true -> PyStr.rstrip s = s.
Proof.
  induction s as [|c r IH]; simpl; [reflexivity|].
  intros H. apply andb_prop in H. destruct H as [Hc Hr].
  rewrite (IH Hr). destruct r; [|reflexivity].
  apply negb_true_iff in Hc. rewrite Hc. reflexivity.
Qed.

Lemma strip_no_space s : no_space s = true -> PyStr.strip s = s.
Proof.
  intros H. unfold PyStr.strip.
  assert (PyStr.lstrip s = s) as ->; [|apply rstrip_no_space, H].
  destruct s as [|c r]; simpl in *; [reflexivity|].
  apply andb_prop in H. destruct H as [Hc _].
  apply negb_true_iff in Hc. rewrite Hc. reflexivity.
Qed.

Lemma no_space_digits d : no_space (NilEmpty.string_of_uint d) = true.
Proof. induction d; simpl; auto. Qed.

Lemma no_space_str n : no_space (PyStr.str n) = true.
Proof.
  unfold PyStr.str.
  destruct (Z.to_int n) as [d|d]; simpl;
    destruct d; simpl; auto using no_space_digits.
Qed.

(** The first character of a printed number is a digit, or [-]. *)
Definition no_plus (s : string) : Prop :=
  match s with
  | String "+" _ => False
  | _ => True
  end.

Lemma no_plus_str n : no_plus (PyStr.str n).
Proof.
  unfold PyStr.str.
  destruct (Z.to_int n) as [d|d]; simpl; [|exact I].
  destruct d; exact I.
Qed.

Lemma int_plain s :
  no_space s = true -> no_plus s ->
  PyStr.int s = option_map Z.of_int (NilZero.int_of_string s).
Proof.
  intros Hs Hp. unfold PyStr.int. rewrite (strip_no_space _ Hs).
  destruct s as [|c r]; [reflexivity|].
  destruct c as [[] [] [] [] [] [] [] []]; try reflexivity.
  destruct Hp.
Qed.

Lemma to_int_proper n :
  Z.to_int n <> Decimal.Pos Decimal.Nil /\
  Z.to_int n <> Decimal.Neg Decimal.Nil.
Proof.
  destruct n as [|p|p]; simpl; split; try discriminate;
    intros [= H]; apply (DecimalPos.Unsigned.to_uint_nonnil _ H).
Qed.

Theorem int_str n : PyStr.int (PyStr.str n) = Some n.
Proof.
  rewrite int_plain; [|apply no_space_str|apply no_plus_str].
  unfold PyStr.str. destruct (to_int_proper n) as [H1 H2].
  rewrite (NilZero.isi _ H1 H2). simpl. rewrite DecimalZ.of_to. reflexivity.
Qed.

End PyStrFacts.

Lemma load_checkpoint_present fb s text :
  checkpoint_file s = Some text ->
  load_checkpoint fb s =
  (match PyStr.int text with
   | Some n => Ret n
   | None => Raise ValueError
   end, s).
Proof.
  intros H. rewrite load_checkpoint_eq.
  unfold try_except, read_checkpoint, read_file, int_, bind.
  unfold checkpoint_file in H.
  destruct (CONFIG_PATH s) as [d|]; [|discriminate].
  rewrite H. destruct (PyStr.int text); reflexivity.
Qed.

(** A run that starts from a checkpoint file. *)
Lemma listen_advances e fuel s text cp r s' :
  checkpoint_file s = Some text ->
  PyStr.int text = Some cp ->
  listen e fuel s = (r, s') ->
  advances cp s r s'.
Proof.
  intros Hf Hcp H. unfold listen, run, logger, do_ in H.
  unfold bind at 1 2 3 in H.
  set (s0 := emit (log INFO Starting_TX_listener) s) in *.
  assert (C00 : calm (fun _ => False) s [log INFO Starting_TX_listener] s0)
    by (repeat split; auto).
  apply (advances_after_calm _ _ [log INFO Starting_TX_listener] s0);
    [reflexivity|exact C00|].
  destruct (last_block_num e s0) as [[head|x] s1] eqn:E1;
    destruct (calm_last_block_num (fun _ => False) _ _ _ _ E1)
      as (t1 & Ht1 & C1).
  2:{ injection H as <- <-.
      apply (advances_nothing _ _ _ _ t1); auto. intros y [=]. }
  apply (advances_after_calm _ _ t1 s1); auto.
  assert (Hf1 : checkpoint_file s1 = Some text).
  { destruct C1 as (_ & _ & -> & _). exact Hf. }
  unfold bind at 1 in H.
  rewrite (load_checkpoint_present _ _ _ Hf1), Hcp in H.
  unfold bind, ret in H. apply run_loop_advances in H. revert H.
  apply (advances_after_calm _ _ [log INFO (Last_processed_block cp)]);
    [reflexivity|]. repeat split; auto.
Qed.

(** *** Catching up with a head that stands still *)

Section CatchingUp.

Variable e : Env.
Variable head : Z.

Hypothesis head_stands :
  forall t, exists p,
    steem_get_dynamic_global_properties e t = Some p /\
    head_block_number p = head.
Hypothesis blocks_there : forall t n, truthy (steem_get_block e t n) = true.
Hypothesis may_recurse : recursion_limit e <> O.
Hypothesis posts_exist : forall t id, steem_post e t id <> None.
Hypothesis template_exists : welcome_message e <> None.

Lemma node_answers t : steem_get_dynamic_global_properties e t <> None.
Proof. destruct (head_stands t) as (p & -> & _). discriminate. Qed.

Lemma last_block_num_head s :
  last_block_num e s = (Ret head, emit get_dynamic_global_properties s).
Proof.
  unfold last_block_num, properties.
  destruct (recursion_limit e) as [|d]; [contradiction|].
  simpl. unfold bind, ask.
  destruct (head_stands (clock s)) as (p & -> & <-). reflexivity.
Qed.

(** The block is there at the first attempt. *)
Lemma process_block_first_attempt n s :
  CONFIG_PATH s <> None ->
  exists s' t,
    process_block e n 0 s = (Ret tt, s') /\
    trace s' = t ++ trace s /\
    fetched (rev t) = [n] /\
    checkpoints_written (rev t) = [] /\
    checkpoint_file s' = checkpoint_file s /\
    CONFIG_PATH s' <> None.
Proof.
  intros Hd. rewrite process_block_eq. unfold bind at 1, ask at 1.
  unfold after_get_block. rewrite blocks_there. cbn [negb].
  destruct (succeeds_process_fetched e node_answers may_recurse posts_exist
              template_exists n _ (blocks_there (clock s) n)
              (emit (get_block n) s) Hd) as ([] & s' & E & Hd').
  destruct (calm_process_fetched (fun _ => False) _ _ _ _ _ _ E)
    as (t & Ht & F & W & C & _).
  exists s', (t ++ [get_block n]).
  rewrite rev_app_distr. simpl. rewrite (Forall_False_nil _ F).
  rewrite Ht, <- app_assoc. auto 10.
Qed.

(** At the head the loop sleeps. *)
Lemma run_loop_idle fuel :
  forall last_block s,
    head <= last_block ->
    exists s' t,
      run_loop e fuel last_block s = (Ret last_block, s') /\
      trace s' = t ++ trace s /\
      calm (fun _ => False) s t s'.
Proof.
  induction fuel as [|fuel IH]; intros last_block s Hle.
  - exists s, []. split; [reflexivity|]. split; [reflexivity|apply frame_nil].
  - simpl. unfold bind at 1. rewrite last_block_num_head.
    destruct (Z.ltb_spec 0 (head - last_block)) as [Hlt|_]; [lia|].
    unfold bind, block_interval, ask, logger, do_.
    match goal with
    | |- context [run_loop e fuel last_block ?s3] =>
        destruct (IH last_block s3 Hle) as (s' & t & E & Ht & F & W & C & D)
    end.
    exists s'. eexists (t ++ [_; _; _; _]).
    split; [exact E|]. split.
    + rewrite Ht, <- app_assoc. reflexivity.
    + unfold calm. rewrite rev_app_distr, fetched_app,
        checkpoints_written_app, W, (Forall_False_nil _ F), C.
      repeat split; auto.
Qed.

Lemma run_loop_catches_up k :
  forall fuel last_block s,
    last_block + Z.of_nat k = head ->
    (k <= fuel)%nat ->
    CONFIG_PATH s <> None ->
    exists s' t,
      run_loop e fuel last_block s = (Ret head, s') /\
      trace s' = t ++ trace s /\
      fetched (rev t) = Zseq (last_block + 1) k /\
      checkpoints_written (rev t) =
      map PyStr.str (Zseq (last_block + 1) k) /\
      checkpoint_file s' = checkpoint_after (checkpoint_file s) last_block k.
Proof.
  induction k as [|k IH]; intros fuel last_block s Hk Hfuel Hd.
  - destruct (run_loop_idle fuel last_block s ltac:(lia))
      as (s' & t & E & Ht & F & W & C & _).
    exists s', t. rewrite (Forall_False_nil _ F), W.
    replace head with last_block by lia. auto.
  - destruct fuel as [|fuel]; [lia|].
    simpl run_loop. unfold bind at 1. rewrite last_block_num_head.
    destruct (Z.ltb_spec 0 (head - last_block)) as [_|Hge]; [|lia].
    unfold bind at 1.
    destruct (process_block_first_attempt (last_block + 1)
                (emit get_dynamic_global_properties s) Hd)
      as (s1 & t1 & -> & Ht1 & F1 & W1 & C1 & Hd1).
    unfold bind at 1, dump_checkpoint, write_file.
    destruct (CONFIG_PATH s1) as [d|] eqn:Ed; [|contradiction].
    match goal with
    | |- context [run_loop e fuel (last_block + 1) ?s3] =>
        destruct (IH fuel (last_block + 1) s3)
          as (s' & t & E & Ht & F & W & C);
        [lia|lia|simpl; discriminate|]
    end.
    exists s',
      (t ++ write_checkpoint (PyStr.str (last_block + 1)) :: t1
         ++ [get_dynamic_global_properties]).
    split; [exact E|].
    assert (Hrev :
              rev (t ++ write_checkpoint (PyStr.str (last_block + 1)) :: t1
                     ++ [get_dynamic_global_properties]) =
              [get_dynamic_global_properties] ++ rev t1 ++
              [write_checkpoint (PyStr.str (last_block + 1))] ++ rev t).
    { rewrite rev_app_distr. simpl. rewrite rev_app_distr. simpl.
      rewrite <- app_assoc. reflexivity. }
    rewrite Hrev, !fetched_app, !checkpoints_written_app, F1, W1, F, W.
    split; [|split; [|split]].
    + rewrite Ht. simpl. rewrite Ht1, <- !app_assoc. simpl.
      rewrite <- app_assoc. reflexivity.
    + reflexivity.
    + reflexivity.
    + rewrite C. unfold checkpoint_after, checkpoint_file. simpl.
      destruct k; f_equal; f_equal; lia.
Qed.

(** The run from a checkpoint [k] blocks behind the head. *)
Lemma listen_catches_up k fuel s text cp :
  checkpoint_file s = Some text ->
  PyStr.int text = Some cp ->
  cp + Z.of_nat k = head ->
  (k <= fuel)%nat ->
  exists s' t,
    listen e fuel s = (Ret head, s') /\
    trace s' = t ++ trace s /\
    fetched (rev t) = Zseq (cp + 1) k /\
    checkpoints_written (rev t) = map PyStr.str (Zseq (cp + 1) k) /\
    checkpoint_file s' = checkpoint_after (Some text) cp k.
Proof.
  intros Hf Hcp Hk Hfuel.
  unfold listen, run, logger, do_. unfold bind at 1 2 3.
  rewrite last_block_num_head. unfold bind at 1.
  rewrite (load_checkpoint_present _ _ text); [|exact Hf].
  rewrite Hcp. unfold bind, ret.
  match goal with
  | |- context [run_loop e fuel cp ?s3] =>
      destruct (run_loop_catches_up k fuel cp s3 Hk Hfuel)
        as (s' & t & E & Ht & F & W & C)
  end.
  { unfold checkpoint_file in Hf. simpl.
    destruct (CONFIG_PATH s); [discriminate|discriminate]. }
  exists s'. eexists (t ++ [_; _; _]).
  split; [exact E|]. split; [rewrite Ht, <- app_assoc; reflexivity|].
  rewrite rev_app_distr, fetched_app, checkpoints_written_app, F, W.
  repeat split; auto.
  rewrite C, <- Hf. reflexivity.
Qed.

End CatchingUp.
(** *** A run without a checkpoint file *)

Lemma load_checkpoint_absent h s :
  checkpoint_file s = None ->
  exists s2 t,
    load_checkpoint (Some h) s = (Ret h, s2) /\
    trace s2 = t ++ trace s /\
    fetched (rev t) = [] /\
    checkpoints_written (rev t) = [PyStr.str h] /\
    checkpoint_file s2 = Some (PyStr.str h).
Proof.
  intros H. rewrite load_checkpoint_eq.
  unfold try_except, read_checkpoint, read_file, bind at 1.
  unfold checkpoint_file in H.
  destruct (CONFIG_PATH s) as [d|] eqn:Ed.
  - rewrite H. cbn [is_exn].
    unfold seed_checkpoint, exists_CONFIG_PATH, dump_checkpoint, write_file,
      ret, bind.
    rewrite Ed. cbn [negb]. rewrite Ed.
    rewrite (load_checkpoint_present _ _ (PyStr.str h)); [|reflexivity].
    rewrite PyStrFacts.int_str.
    eexists _, [_]. repeat split.
  - cbn [is_exn].
    unfold seed_checkpoint, exists_CONFIG_PATH, dump_checkpoint, write_file,
      makedirs_CONFIG_PATH, ret, bind.
    rewrite Ed. cbn.
    rewrite (load_checkpoint_present _ _ (PyStr.str h)); [|reflexivity].
    rewrite PyStrFacts.int_str.
    eexists _, [_; _]. repeat split.
Qed.

(** The first run writes the head it finds, and goes on from there. *)
Lemma listen_fresh e fuel s r s' :
  checkpoint_file s = None ->
  listen e fuel s = (r, s') ->
  exists t,
    trace s' = t ++ trace s /\
    (checkpoints_written (rev t) = [] \/
     exists head k,
       checkpoints_written (rev t) = map PyStr.str (Zseq head (S k)) /\
       checkpoint_file s' = Some (PyStr.str (head + Z.of_nat k))).
Proof.
  intros Hf H. unfold listen, run, logger, do_ in H.
  unfold bind at 1 2 3 in H.
  set (s0 := emit (log INFO Starting_TX_listener) s) in *.
  destruct (last_block_num e s0) as [[head|x] s1] eqn:E1;
    destruct (calm_last_block_num (fun _ => False) _ _ _ _ E1)
      as (t1 & Ht1 & F1 & W1 & C1 & _).
  2:{ injection H as <- <-. exists (t1 ++ [log INFO Starting_TX_listener]).
      split; [rewrite Ht1, <- app_assoc; reflexivity|]. left.
      rewrite rev_app_distr, checkpoints_written_app, W1. reflexivity. }
  assert (Hf1 : checkpoint_file s1 = None) by (rewrite C1; exact Hf).
  unfold bind at 1 in H.
  destruct (load_checkpoint_absent head s1 Hf1)
    as (s2 & t2 & E2 & Ht2 & F2 & W2 & C2).
  rewrite E2 in H. unfold bind, ret in H.
  apply run_loop_advances in H.
  destruct H as (t & k & again & Ht & F & L & W & C & _).
  exists (t ++ [log INFO (Last_processed_block head)] ++ t2 ++ t1
            ++ [log INFO Starting_TX_listener]).
  split.
  - rewrite Ht. cbn [trace emit]. rewrite Ht2, Ht1. subst s0.
    cbn [trace emit]. rewrite <- !app_assoc. reflexivity.
  - right. exists head, k.
    rewrite !rev_app_distr, !checkpoints_written_app, W, W2, W1. simpl.
    split; [reflexivity|].
    rewrite C. unfold checkpoint_after. simpl.
    change (checkpoint_file (emit (log INFO (Last_processed_block head)) s2))
      with (checkpoint_file s2).
    rewrite C2. destruct k; [rewrite Z.add_0_r|]; reflexivity.
Qed.

Lemma process_block_never_there e n s :
  (forall t, steem_get_block e t n = PyNone) ->
  exists s',
    process_block e n 0 s = (Raise TypeError, s') /\
    history s' =
    history s ++
    [get_block n; log ERROR (Couldnt_read_the_block_Retrying n);
     get_block n; log ERROR (Couldnt_read_the_block_Retrying n);
     get_block n; log ERROR (Couldnt_read_the_block_Retrying n);
     get_block n; log ERROR (Couldnt_read_the_block_Retrying n);
     get_block n; log ERROR (Retried_3_times_Skipping n);
     log INFO (Processing_block n)] /\
    CONFIG_PATH s' = CONFIG_PATH s.
Proof.
  intros H.
  do 5 (rewrite process_block_eq;
        unfold after_get_block, ask, logger, do_, bind; rewrite ?H;
        cbn [truthy negb Nat.ltb Nat.leb]).
  unfold process_fetched, transactions_not_in, bind, logger, do_, raise.
  eexists. split; [reflexivity|]. unfold history. simpl.
  rewrite <- !app_assoc. split; reflexivity.
Qed.

Lemma process_block_always_empty e n s :
  (forall t, steem_get_block e t n = Dict []) ->
  exists s',
    process_block e n 0 s = (Ret tt, s') /\
    history s' =
    history s ++
    [get_block n; log ERROR (Couldnt_read_the_block_Retrying n);
     get_block n; log ERROR (Couldnt_read_the_block_Retrying n);
     get_block n; log ERROR (Couldnt_read_the_block_Retrying n);
     get_block n; log ERROR (Couldnt_read_the_block_Retrying n);
     get_block n; log ERROR (Retried_3_times_Skipping n);
     log INFO (Processing_block n); log INFO (Processing_block n);
     log INFO (Processing_block n); log INFO (Processing_block n)] /\
    CONFIG_PATH s' = CONFIG_PATH s.
Proof.
  intros H.
  do 5 (rewrite process_block_eq;
        unfold after_get_block, ask, logger, do_, bind; rewrite ?H;
        cbn [truthy negb Nat.ltb Nat.leb]).
  unfold process_fetched, transactions_not_in, bind, logger, do_, ret.
  simpl. eexists. split; [reflexivity|]. unfold history. simpl.
  rewrite <- !app_assoc. split; reflexivity.
Qed.

(** ** Properties of the ingestion loop *)

(** C1: block 96 is never there ([get_block] returns [None] at every
    attempt).  The run fetches it five times and logs five errors; the
    call with [retry_count] 3 then goes on with its own [None], the
    test for ['transactions'] raises TypeError, and the run ends with
    the checkpoint still at 95.  When the answer is an empty dictionary
    instead, the fetches and errors are the same five and the checkpoint
    is written. *)
Theorem missing_block_is_fetched_five_times :
  (forall fuel,
      let out := listen (Scene.node [] Scene.missing_96) (S fuel)
                   Scene.at_95 in
      fst out = Raise TypeError /\
      fetched (history (snd out)) = [96; 96; 96; 96; 96] /\
      filter is_error (history (snd out)) =
      [log ERROR (Couldnt_read_the_block_Retrying 96);
       log ERROR (Couldnt_read_the_block_Retrying 96);
       log ERROR (Couldnt_read_the_block_Retrying 96);
       log ERROR (Couldnt_read_the_block_Retrying 96);
       log ERROR (Retried_3_times_Skipping 96)] /\
      checkpoints_written (history (snd out)) = [] /\
      checkpoint_file (snd out) = Some "95") /\
  (let out := listen (Scene.node [] Scene.empty_96) 1 Scene.at_95 in
   fst out = Ret 96 /\
   fetched (history (snd out)) = [96; 96; 96; 96; 96] /\
   filter is_error (history (snd out)) =
   [log ERROR (Couldnt_read_the_block_Retrying 96);
    log ERROR (Couldnt_read_the_block_Retrying 96);
    log ERROR (Couldnt_read_the_block_Retrying 96);
    log ERROR (Couldnt_read_the_block_Retrying 96);
    log ERROR (Retried_3_times_Skipping 96)] /\
   checkpoints_written (history (snd out)) = ["96"] /\
   checkpoint_file (snd out) = Some "96").
Proof.
  split.
  - intros fuel. vm_compute. repeat split.
  - vm_compute. repeat split.
Qed.

(** C2: block 98 holds a welcome command of erin whose root post is
    gone.  [Post(post.root_identifier)] raises PostDoesNotExist in
    [handle_command], nothing catches it, and the run ends there, with
    the checkpoint at 97, however long it is allowed to go on. *)
Theorem missing_root_post_ends_the_run :
  forall fuel,
    let out := listen (Scene.node [Scene.comment Scene.erin_reply] Scene.full)
                 (3 + fuel) Scene.at_95 in
    fst out = Raise PostDoesNotExist /\
    fetched (history (snd out)) = [96; 97; 98] /\
    checkpoints_written (history (snd out)) = ["96"; "97"] /\
    checkpoint_file (snd out) = Some "97".
Proof. intros fuel. vm_compute. repeat split. Qed.

(** C6: a run that starts from a checkpoint file holding [cp] fetches
    the blocks [cp+1], [cp+2], ... in this order, each once or more, and
    writes [cp+1], ..., [cp+k] to the checkpoint file in this order, the
    last block fetched being [cp+k] or [cp+k+1]; the file then reads
    [cp+k].  A run without a checkpoint file writes the head it finds
    and the numbers after it, in this order.  With the head at 100,
    every block there and the checkpoint at 95, a run of five rounds or
    more fetches 96, 97, 98, 99, 100 and leaves the file at 100. *)
Theorem checkpoint_advances_in_order :
  (forall e fuel s text cp r s',
      checkpoint_file s = Some text ->
      PyStr.int text = Some cp ->
      listen e fuel s = (r, s') ->
      exists t k again,
        trace s' = t ++ trace s /\
        fetched (rev t) = blocks (cp + 1) again /\
        (List.length again = k \/ List.length again = S k) /\
        checkpoints_written (rev t) = map PyStr.str (Zseq (cp + 1) k) /\
        exists text',
          checkpoint_file s' = Some text' /\
          PyStr.int text' = Some (cp + Z.of_nat k)) /\
  (forall e fuel s r s',
      checkpoint_file s = None ->
      listen e fuel s = (r, s') ->
      exists t,
        trace s' = t ++ trace s /\
        (checkpoints_written (rev t) = [] \/
         exists head k,
           checkpoints_written (rev t) = map PyStr.str (Zseq head (S k)) /\
           checkpoint_file s' = Some (PyStr.str (head + Z.of_nat k)))) /\
  (forall e fuel s,
      (forall t, exists p,
          steem_get_dynamic_global_properties e t = Some p /\
          head_block_number p = 100) ->
      (forall t n, truthy (steem_get_block e t n) = true) ->
      recursion_limit e <> O ->
      (forall t id, steem_post e t id <> None) ->
      welcome_message e <> None ->
      checkpoint_file s = Some "95" ->
      (5 <= fuel)%nat ->
      exists s' t,
        listen e fuel s = (Ret 100, s') /\
        trace s' = t ++ trace s /\
        fetched (rev t) = [96; 97; 98; 99; 100] /\
        checkpoints_written (rev t) = ["96"; "97"; "98"; "99"; "100"] /\
        checkpoint_file s' = Some "100").
Proof.
  split; [|split].
  - intros e fuel s text cp r s' Hf Hcp H.
    destruct (listen_advances _ _ _ _ _ _ _ Hf Hcp H)
      as (t & k & again & Ht & F & L & W & C & _).
    exists t, k, again. repeat split; auto.
    rewrite C, Hf. destruct k; simpl.
    + exists text. rewrite Z.add_0_r. auto.
    + eexists. split; [reflexivity|apply PyStrFacts.int_str].
  - apply listen_fresh.
  - intros e fuel s Hhead Hblocks Hrec Hposts Htemplate Hf Hfuel.
    apply (listen_catches_up e 100 Hhead Hblocks Hrec Hposts Htemplate
             5 fuel s "95" 95 Hf); [reflexivity|reflexivity|exact Hfuel].
Qed.

Lemma checkpoint_advances_in_order_witness :
  let e := Scene.node_with Scene.settled [Scene.comment Scene.carol_reply]
             Scene.full in
  let out := listen e 8 Scene.at_95 in
  let first := listen e 2 Scene.nothing in
  (exists t k again,
      trace (snd out) = t ++ trace Scene.at_95 /\
      fetched (rev t) = blocks (95 + 1) again /\
      (List.length again = k \/ List.length again = S k) /\
      checkpoints_written (rev t) = map PyStr.str (Zseq (95 + 1) k) /\
      exists text',
        checkpoint_file (snd out) = Some text' /\
        PyStr.int text' = Some (95 + Z.of_nat k)) /\
  (exists t,
      trace (snd first) = t ++ trace Scene.nothing /\
      (checkpoints_written (rev t) = [] \/
       exists head k,
         checkpoints_written (rev t) = map PyStr.str (Zseq head (S k)) /\
         checkpoint_file (snd first) =
         Some (PyStr.str (head + Z.of_nat k)))) /\
  (exists s' t,
      listen e 8 Scene.at_95 = (Ret 100, s') /\
      trace s' = t ++ trace Scene.at_95 /\
      fetched (rev t) = [96; 97; 98; 99; 100] /\
      checkpoints_written (rev t) = ["96"; "97"; "98"; "99"; "100"] /\
      checkpoint_file s' = Some "100").
Proof.
  intros e out first. split; [|split].
  - apply (proj1 checkpoint_advances_in_order e 8%nat Scene.at_95 "95" 95
             (fst out)).
    + reflexivity.
    + reflexivity.
    + apply surjective_pairing.
  - apply (proj1 (proj2 checkpoint_advances_in_order) e 2%nat Scene.nothing
             (fst first)).
    + reflexivity.
    + apply surjective_pairing.
  - apply (proj2 (proj2 checkpoint_advances_in_order) e 8%nat Scene.at_95).
    + intros t. eexists. split; reflexivity.
    + reflexivity.
    + discriminate.
    + intros t id. unfold e. simpl. unfold Scene.settled.
      destruct (Scene.chain id); discriminate.
    + discriminate.
    + reflexivity.
    + lia.
Defined.

(** * Further properties of the module *)

(** ** The checkpoint and state files *)

(** X1: what [dump_checkpoint] writes, [load_checkpoint] reads back,
    for every integer and whatever the fallback. *)
Theorem dump_then_load_checkpoint n fb s s1 :
  dump_checkpoint (Some n) s = (Ret tt, s1) ->
  load_checkpoint fb s1 = (Ret n, s1).
Proof.
  unfold dump_checkpoint, write_file.
  destruct (CONFIG_PATH s) as [d|]; [|discriminate].
  intros [= <-].
  rewrite (load_checkpoint_present _ _ (PyStr.str n)); [|reflexivity].
  rewrite PyStrFacts.int_str. reflexivity.
Qed.

Lemma dump_then_load_checkpoint_witness :
  let s1 := snd (dump_checkpoint (Some (-1234567890)) Scene.at_95) in
  load_checkpoint None s1 = (Ret (-1234567890), s1) /\
  checkpoint_file s1 = Some "-1234567890".
Proof.
  intros s1. split; [|reflexivity].
  apply (dump_then_load_checkpoint (-1234567890) None Scene.at_95 s1).
  reflexivity.
Defined.

(** X2: without a checkpoint file, [load_checkpoint] with a fallback
    creates the directory when it is missing, writes the fallback to the
    file and returns it. *)
Theorem load_checkpoint_seeds h s :
  checkpoint_file s = None ->
  exists s2,
    load_checkpoint (Some h) s = (Ret h, s2) /\
    history s2 =
    history s ++
    match CONFIG_PATH s with
    | None => [makedirs; write_checkpoint (PyStr.str h)]
    | Some _ => [write_checkpoint (PyStr.str h)]
    end /\
    checkpoint_file s2 = Some (PyStr.str h) /\
    welcome s2 = welcome s /\
    upvote_table s2 = upvote_table s.
Proof.
  intros H. rewrite load_checkpoint_eq.
  unfold try_except, read_checkpoint, read_file, bind at 1.
  unfold checkpoint_file in H.
  destruct (CONFIG_PATH s) as [d|] eqn:Ed.
  - rewrite H. cbn [is_exn].
    unfold seed_checkpoint, exists_CONFIG_PATH, dump_checkpoint, write_file,
      ret, bind.
    rewrite Ed. cbn [negb]. rewrite Ed.
    rewrite (load_checkpoint_present _ _ (PyStr.str h)); [|reflexivity].
    rewrite PyStrFacts.int_str.
    eexists. split; [reflexivity|]. repeat split.
  - cbn [is_exn].
    unfold seed_checkpoint, exists_CONFIG_PATH, dump_checkpoint, write_file,
      makedirs_CONFIG_PATH, ret, bind.
    rewrite Ed. cbn.
    rewrite (load_checkpoint_present _ _ (PyStr.str h)); [|reflexivity].
    rewrite PyStrFacts.int_str.
    eexists. split; [reflexivity|]. unfold history. simpl.
    rewrite <- app_assoc. repeat split.
Qed.

Lemma load_checkpoint_seeds_witness :
  exists s2,
    load_checkpoint (Some 100) Scene.nothing = (Ret 100, s2) /\
    history s2 = [makedirs; write_checkpoint "100"] /\
    checkpoint_file s2 = Some "100" /\
    welcome s2 = [] /\
    upvote_table s2 = [].
Proof.
  apply (load_checkpoint_seeds 100 Scene.nothing). reflexivity.
Defined.

(** X3: without a checkpoint file and without a fallback,
    [load_checkpoint] writes the text [None] to the file and raises
    ValueError; from then on every [load_checkpoint] raises ValueError,
    whatever its fallback. *)
Theorem load_checkpoint_without_fallback s :
  checkpoint_file s = None ->
  exists s2,
    load_checkpoint None s = (Raise ValueError, s2) /\
    checkpoint_file s2 = Some "None" /\
    forall fb, load_checkpoint fb s2 = (Raise ValueError, s2).
Proof.
  intros H.
  assert (Hnone : forall fb s2,
             checkpoint_file s2 = Some "None" ->
             load_checkpoint fb s2 = (Raise ValueError, s2)).
  { intros fb s2 H2. rewrite (load_checkpoint_present _ _ _ H2).
    reflexivity. }
  rewrite load_checkpoint_eq.
  unfold try_except, read_checkpoint, read_file, bind at 1.
  unfold checkpoint_file in H.
  destruct (CONFIG_PATH s) as [d|] eqn:Ed.
  - rewrite H. cbn [is_exn].
    unfold seed_checkpoint, exists_CONFIG_PATH, dump_checkpoint, write_file,
      ret, bind.
    rewrite Ed. cbn [negb]. rewrite Ed.
    rewrite Hnone; [|reflexivity].
    eexists. split; [reflexivity|]. split; [reflexivity|].
    intros fb. apply Hnone. reflexivity.
  - cbn [is_exn].
    unfold seed_checkpoint, exists_CONFIG_PATH, dump_checkpoint, write_file,
      makedirs_CONFIG_PATH, ret, bind.
    rewrite Ed. cbn.
    rewrite Hnone; [|reflexivity].
    eexists. split; [reflexivity|]. split; [reflexivity|].
    intros fb. apply Hnone. reflexivity.
Qed.

Lemma load_checkpoint_without_fallback_witness :
  exists s2,
    load_checkpoint None Scene.nothing = (Raise ValueError, s2) /\
    checkpoint_file s2 = Some "None" /\
    forall fb, load_checkpoint fb s2 = (Raise ValueError, s2).
Proof.
  apply (load_checkpoint_without_fallback Scene.nothing). reflexivity.
Defined.

(** X4: after a [load_checkpoint] that returned, every later
    [load_checkpoint] returns the same number and changes nothing,
    whatever its fallback. *)
Theorem load_checkpoint_again fb s n s' :
  load_checkpoint fb s = (Ret n, s') ->
  forall fb', load_checkpoint fb' s' = (Ret n, s').
Proof.
  intros H fb'.
  destruct (checkpoint_file s) as [text|] eqn:Hf.
  - rewrite (load_checkpoint_present _ _ _ Hf) in H.
    destruct (PyStr.int text) as [m|] eqn:Hm; [|discriminate].
    injection H as <- <-.
    rewrite (load_checkpoint_present _ _ _ Hf), Hm. reflexivity.
  - destruct fb as [h|].
    + destruct (load_checkpoint_seeds h s Hf) as (s2 & E & _ & Hf2 & _).
      rewrite E in H. injection H as <- <-.
      rewrite (load_checkpoint_present _ _ _ Hf2), PyStrFacts.int_str.
      reflexivity.
    + destruct (load_checkpoint_without_fallback s Hf) as (s2 & E & _).
      rewrite E in H. discriminate.
Qed.

Lemma load_checkpoint_again_witness :
  let s' := snd (load_checkpoint (Some 100) Scene.nothing) in
  load_checkpoint (Some 7) s' = (Ret 100, s').
Proof.
  intros s'.
  apply (load_checkpoint_again (Some 100) Scene.nothing 100 s').
  reflexivity.
Defined.

(** The defining equation of [load_state], in the shape of the source. *)
Lemma load_state_eq fb s :
  load_state fb s =
  try_except (read_file STATE) (is_exn FileNotFoundError)
    (seed_state fb ;;; load_state None) s.
Proof.
  funelim (load_state fb s); unfold try_except, bind;
    repeat match goal with
           | H : ?m = (_, _) |- context [?m] => rewrite H
           end; reflexivity.
Qed.

(** X5: what [dump_state] writes, [load_state] reads back; and without
    a state file [load_state] writes its fallback, [None] included, and
    returns it, after creating the directory when it is missing. *)
Theorem dump_then_load_state :
  (forall data fb s s1,
      dump_state data s = (Ret tt, s1) ->
      load_state fb s1 = (Ret data, s1)) /\
  (forall fb s,
      match CONFIG_PATH s with
      | Some d => STATE d = None
      | None => True
      end ->
      exists s2,
        load_state fb s = (Ret fb, s2) /\
        history s2 =
        history s ++
        match CONFIG_PATH s with
        | None => [makedirs; write_state fb]
        | Some _ => [write_state fb]
        end /\
        checkpoint_file s2 = checkpoint_file s).
Proof.
  assert (Hpresent : forall data fb s d,
             CONFIG_PATH s = Some d -> STATE d = Some data ->
             load_state fb s = (Ret data, s)).
  { intros data fb s d Hd Hs. rewrite load_state_eq.
    unfold try_except, read_file. rewrite Hd, Hs. reflexivity. }
  split.
  - intros data fb s s1. unfold dump_state, write_file.
    destruct (CONFIG_PATH s) as [d|]; [|discriminate].
    intros [= <-]. eapply Hpresent; reflexivity.
  - intros fb s H. rewrite load_state_eq.
    unfold try_except, read_file, checkpoint_file.
    destruct (CONFIG_PATH s) as [d|] eqn:Ed.
    + rewrite H. cbn [is_exn].
      unfold seed_state, exists_CONFIG_PATH, dump_state, write_file,
        ret, bind.
      rewrite Ed. cbn [negb]. rewrite Ed.
      erewrite Hpresent; [|reflexivity|reflexivity].
      eexists. split; [reflexivity|]. simpl. rewrite ?Ed.
      split; reflexivity.
    + cbn [is_exn].
      unfold seed_state, exists_CONFIG_PATH, dump_state, write_file,
        makedirs_CONFIG_PATH, ret, bind.
      rewrite Ed. cbn.
      erewrite Hpresent; [|reflexivity|reflexivity].
      eexists. split; [reflexivity|]. unfold history. simpl.
      rewrite ?Ed, <- app_assoc. split; reflexivity.
Qed.

Lemma dump_then_load_state_witness :
  (let data := Some (mkProps 100 "2018-01-01T00:00:00") in
   let s1 := snd (dump_state data Scene.at_95) in
   load_state None s1 = (Ret data, s1)) /\
  (exists s2,
      load_state None Scene.nothing = (Ret None, s2) /\
      history s2 = [makedirs; write_state None] /\
      checkpoint_file s2 = None).
Proof.
  split.
  - intros data s1.
    apply (proj1 dump_then_load_state data None Scene.at_95 s1).
    reflexivity.
  - apply (proj2 dump_then_load_state None Scene.nothing). exact I.
Defined.

(** ** [properties] *)

(** One call of the node that was answered with nothing. *)
Definition asked_in_vain : list event :=
  [get_dynamic_global_properties; log INFO Couldnt_get_block_num].

Lemma properties_from_answered e j :
  forall depth s p,
    (j < depth)%nat ->
    (forall i, (i < j)%nat ->
               steem_get_dynamic_global_properties e (clock s + 2 * i) = None) ->
    steem_get_dynamic_global_properties e (clock s + 2 * j) = Some p ->
    exists s',
      properties_from e depth s = (Ret p, s') /\
      history s' =
      history s ++ List.concat (repeat asked_in_vain j)
      ++ [get_dynamic_global_properties] /\
      CONFIG_PATH s' = CONFIG_PATH s /\
      welcome s' = welcome s /\
      upvote_table s' = upvote_table s.
Proof.
  induction j as [|j IH]; intros depth s p Hd Hnone Hsome;
    (destruct depth as [|d]; [lia|]); simpl; unfold bind, ask.
  - replace (clock s + 2 * 0)%nat with (clock s) in Hsome by lia.
    rewrite Hsome. eexists. split; [reflexivity|]. repeat split.
  - assert (H0 : steem_get_dynamic_global_properties e (clock s) = None).
    { rewrite <- (Hnone O) by lia. f_equal. lia. }
    rewrite H0. unfold logger, do_.
    set (s1 := emit (log INFO Couldnt_get_block_num)
                 (emit get_dynamic_global_properties s)).
    destruct (IH d s1 p) as (s' & E & Hh & Hc & Hw & Hu).
    + lia.
    + intros i Hi. rewrite <- (Hnone (S i)) by lia. f_equal.
      unfold clock, s1. simpl. lia.
    + rewrite <- Hsome. f_equal. unfold clock, s1. simpl. lia.
    + exists s'. split; [exact E|]. split; [|auto].
      rewrite Hh. unfold history, s1. simpl. rewrite <- !app_assoc.
      reflexivity.
Qed.

(** X6: [properties] asks the node until it answers; it returns the
    first answer and logs each call that was answered with nothing. *)
Theorem properties_returns_first_answer e s j p :
  (j < recursion_limit e)%nat ->
  (forall i, (i < j)%nat ->
             steem_get_dynamic_global_properties e (clock s + 2 * i) = None) ->
  steem_get_dynamic_global_properties e (clock s + 2 * j) = Some p ->
  exists s',
    properties e s = (Ret p, s') /\
    history s' =
    history s ++ List.concat (repeat asked_in_vain j)
    ++ [get_dynamic_global_properties] /\
    CONFIG_PATH s' = CONFIG_PATH s /\
    welcome s' = welcome s /\
    upvote_table s' = upvote_table s.
Proof. apply properties_from_answered. Qed.

(** The node of the scene, silent at its first two calls. *)
Definition slow_node : Env :=
  mkEnv "bot" [] None (fun _ => Scene.full)
    (fun t => if (t <? 4)%nat then None
              else Some (mkProps 100 "2018-01-01T00:00:00"))
    (fun _ => 3) (fun _ _ => []) (fun _ => Scene.chain) (fun _ _ => true)
    (fun _ => "2018-01-01 00:00:00") 1000.

Lemma properties_returns_first_answer_witness :
  exists s',
    properties slow_node Scene.at_95 =
    (Ret (mkProps 100 "2018-01-01T00:00:00"), s') /\
    history s' =
    [get_dynamic_global_properties; log INFO Couldnt_get_block_num;
     get_dynamic_global_properties; log INFO Couldnt_get_block_num;
     get_dynamic_global_properties] /\
    CONFIG_PATH s' = CONFIG_PATH Scene.at_95 /\
    welcome s' = [] /\
    upvote_table s' = [].
Proof.
  apply (properties_returns_first_answer slow_node Scene.at_95 2).
  - simpl. lia.
  - intros i Hi. destruct i as [|[|i]]; [reflexivity|reflexivity|lia].
  - reflexivity.
Defined.

Lemma properties_from_silent e depth :
  forall s,
    (forall t, steem_get_dynamic_global_properties e t = None) ->
    exists s',
      properties_from e depth s = (Raise RecursionError, s') /\
      history s' = history s ++ List.concat (repeat asked_in_vain depth).
Proof.
  induction depth as [|d IH]; intros s H; simpl.
  - exists s. split; [reflexivity|]. rewrite app_nil_r. reflexivity.
  - unfold bind, ask, logger, do_. rewrite H.
    destruct (IH (emit (log INFO Couldnt_get_block_num)
                    (emit get_dynamic_global_properties s)) H)
      as (s' & E & Hh).
    exists s'. split; [exact E|]. rewrite Hh. unfold history. simpl.
    rewrite <- !app_assoc. reflexivity.
Qed.

(** X7: when the node never answers, [properties] asks as often as the
    interpreter lets it call itself, and then ends with RecursionError. *)
Theorem properties_of_a_silent_node e s :
  (forall t, steem_get_dynamic_global_properties e t = None) ->
  exists s',
    properties e s = (Raise RecursionError, s') /\
    history s' =
    history s ++ List.concat (repeat asked_in_vain (recursion_limit e)).
Proof. intros H. apply properties_from_silent, H. Qed.

Definition silent_node : Env :=
  mkEnv "bot" [] None (fun _ => Scene.full) (fun _ => None)
    (fun _ => 3) (fun _ _ => []) (fun _ => Scene.chain) (fun _ _ => true)
    (fun _ => "2018-01-01 00:00:00") 3.

Lemma properties_of_a_silent_node_witness :
  exists s',
    properties silent_node Scene.at_95 = (Raise RecursionError, s') /\
    history s' =
    [get_dynamic_global_properties; log INFO Couldnt_get_block_num;
     get_dynamic_global_properties; log INFO Couldnt_get_block_num;
     get_dynamic_global_properties; log INFO Couldnt_get_block_num].
Proof.
  apply (properties_of_a_silent_node silent_node Scene.at_95).
  reflexivity.
Defined.

(** ** [process_block] *)

Lemma process_block_attempts e n k :
  forall retry_count s r s',
    k = (4 - retry_count)%nat ->
    process_block e n retry_count s = (r, s') ->
    exists t c,
      trace s' = t ++ trace s /\
      fetched (rev t) = repeat n (S c) /\
      (c <= 4 - retry_count)%nat /\
      checkpoints_written (rev t) = [] /\
      checkpoint_file s' = checkpoint_file s.
Proof.
  induction k as [k IH] using lt_wf_ind.
  intros retry_count s r s' Hk H.
  rewrite process_block_eq in H. unfold bind at 1, ask at 1 in H.
  unfold after_get_block in H.
  set (s0 := emit (get_block n) s) in *.
  destruct (truthy _).
  - cbn [negb] in H.
    destruct (calm_process_fetched (fun _ => False) _ _ _ _ _ _ H)
      as (t & Ht & F & W & C & _).
    exists (t ++ [get_block n]), O.
    rewrite rev_app_distr, fetched_app, checkpoints_written_app, W,
      (Forall_False_nil _ F). simpl.
    split; [rewrite Ht; unfold s0; simpl; rewrite <- app_assoc;
            reflexivity|].
    split; [reflexivity|]. split; [lia|]. split; [reflexivity|exact C].
  - cbn [negb] in H. destruct (Nat.ltb_spec 3 retry_count) as [Hlt|Hge].
    + injection H as <- <-.
      exists [log ERROR (Retried_3_times_Skipping n); get_block n], O.
      split; [reflexivity|]. split; [reflexivity|]. split; [lia|].
      split; reflexivity.
    + unfold bind at 1, logger, do_ in H. unfold bind at 1 in H.
      set (s1 := emit (log ERROR (Couldnt_read_the_block_Retrying n)) s0)
        in *.
      destruct (process_block e n (S retry_count) s1) as [[u|x] s2] eqn:E;
        destruct (IH (4 - S retry_count)%nat ltac:(lia) _ _ _ _ eq_refl E)
          as (t2 & c2 & Ht2 & F2 & Hc2 & W2 & C2).
      * destruct (calm_process_fetched (fun _ => False) _ _ _ _ _ _ H)
          as (t3 & Ht3 & F3 & W3 & C3 & _).
        assert (Hc : (S c2 <= 4 - retry_count)%nat) by lia.
        exists (t3 ++ t2 ++
                [log ERROR (Couldnt_read_the_block_Retrying n);
                 get_block n]), (S c2).
        rewrite !rev_app_distr, !fetched_app, !checkpoints_written_app,
          W3, W2, F2, (Forall_False_nil _ F3). simpl.
        rewrite ?app_nil_r.
        split; [rewrite Ht3, Ht2; unfold s1, s0; simpl;
                rewrite <- !app_assoc; reflexivity|].
        split; [reflexivity|]. split; [exact Hc|]. split; [reflexivity|].
        rewrite C3, C2. reflexivity.
      * injection H as <- <-.
        assert (Hc : (S c2 <= 4 - retry_count)%nat) by lia.
        exists (t2 ++
                [log ERROR (Couldnt_read_the_block_Retrying n);
                 get_block n]), (S c2).
        rewrite !rev_app_distr, !fetched_app, !checkpoints_written_app,
          W2, F2. simpl. rewrite ?app_nil_r.
        split; [rewrite Ht2; unfold s1, s0; simpl;
                rewrite <- !app_assoc; reflexivity|].
        split; [reflexivity|]. split; [exact Hc|]. split; [reflexivity|].
        exact C2.
Qed.

(** X8: a call of [process_block] fetches its own block and no other,
    at least once and at most five times, and never writes the
    checkpoint file. *)
Theorem process_block_fetches_at_most_five_times e n s r s' :
  process_block e n 0 s = (r, s') ->
  exists t c,
    trace s' = t ++ trace s /\
    fetched (rev t) = repeat n (S c) /\
    (c <= 4)%nat /\
    checkpoints_written (rev t) = [] /\
    checkpoint_file s' = checkpoint_file s.
Proof. apply (process_block_attempts e n 4 O s r s' eq_refl). Qed.

Lemma process_block_fetches_at_most_five_times_witness :
  let out := process_block (Scene.node [] Scene.empty_96) 96 0 Scene.at_95 in
  fetched (history (snd out)) = [96; 96; 96; 96; 96] /\
  exists t c,
    trace (snd out) = t ++ trace Scene.at_95 /\
    fetched (rev t) = repeat 96 (S c) /\
    (c <= 4)%nat /\
    checkpoints_written (rev t) = [] /\
    checkpoint_file (snd out) = checkpoint_file Scene.at_95.
Proof.
  intros out. split; [reflexivity|].
  apply (process_block_fetches_at_most_five_times
           (Scene.node [] Scene.empty_96) 96 Scene.at_95 (fst out)).
  apply surjective_pairing.
Defined.

(** X9: a block that is there but has no key ['transactions'] is logged
    and nothing more: its operations are not read and no snapshot is
    written. *)
Theorem process_block_without_transactions e n retry_count s keys :
  steem_get_block e (clock s) n = Dict keys ->
  keys <> [] ->
  ~ In "transactions" keys ->
  process_block e n retry_count s =
  (Ret tt, emit (log INFO (Processing_block n)) (emit (get_block n) s)).
Proof.
  intros Hb Hk Hin. rewrite process_block_eq.
  unfold bind at 1, ask at 1, after_get_block. rewrite Hb.
  destruct keys as [|k keys]; [contradiction|]. cbn [truthy negb].
  unfold process_fetched, transactions_not_in, logger, do_, ret, bind.
  destruct (existsb (String.eqb "transactions") (k :: keys)) eqn:E;
    [|reflexivity].
  apply blacklisted_In in E. contradiction.
Qed.

Lemma process_block_without_transactions_witness :
  process_block
    (Scene.node [Scene.comment Scene.carol_reply]
       (fun _ => Dict ["previous"; "timestamp"]))
    98 0 Scene.at_95 =
  (Ret tt,
   emit (log INFO (Processing_block 98)) (emit (get_block 98) Scene.at_95)).
Proof.
  apply (process_block_without_transactions _ 98 O Scene.at_95
           ["previous"; "timestamp"]).
  - reflexivity.
  - discriminate.
  - simpl. intros [H|[H|[]]]; discriminate H.
Defined.

(** X10: when the block is not there at the first attempt and is there
    at the second, the second call processes it, and the first call then
    goes on with its own empty answer: the block is logged a second
    time, and the call raises TypeError when the first answer was [None]
    and returns when it was an empty dictionary. *)
Theorem process_block_found_at_second_attempt e n s first second s2 :
  let s1 := emit (log ERROR (Couldnt_read_the_block_Retrying n))
              (emit (get_block n) s) in
  steem_get_block e (clock s) n = first ->
  truthy first = false ->
  steem_get_block e (clock s1) n = second ->
  truthy second = true ->
  process_fetched e n second (emit (get_block n) s1) = (Ret tt, s2) ->
  process_block e n 0 s =
  (match first with
   | PyNone => Raise TypeError
   | Dict _ => Ret tt
   end,
   emit (log INFO (Processing_block n)) s2).
Proof.
  intros s1 H1 Hf H2 Hs Hp.
  rewrite process_block_eq.
  unfold bind at 1, ask at 1, after_get_block. rewrite H1, Hf.
  cbn [negb Nat.ltb Nat.leb].
  unfold bind at 1, logger, do_. unfold bind at 1.
  rewrite process_block_eq.
  unfold bind at 1, ask at 1, after_get_block. fold s1. rewrite H2, Hs.
  cbn [negb]. rewrite Hp.
  unfold process_fetched, transactions_not_in, logger, do_, ret, raise, bind.
  destruct first as [|[|k keys]]; [reflexivity|reflexivity|discriminate].
Qed.

(** The node of the scene, where a block is there from the second
    attempt on. *)
Definition late_node : Env :=
  mkEnv "bot" ["spammer"] (Some "Welcome $username!")
    (fun t _ => if (t <? 1)%nat then PyNone else Dict ["transactions"])
    (fun _ => Some (mkProps 100 "2018-01-01T00:00:00"))
    (fun _ => 3)
    (fun _ n => if n =? 98 then [Scene.comment Scene.carol_reply] else [])
    (fun _ => Scene.chain) (fun _ _ => true)
    (fun _ => "2018-01-01 00:00:00") 1000.

Lemma process_block_found_at_second_attempt_witness :
  let out := process_block late_node 98 0 Scene.at_95 in
  fst out = Raise TypeError /\
  actions (history (snd out)) =
  [reply ("alice", "intro") "Welcome alice!" "bot";
   vote ("alice", "intro") 80 "bot"] /\
  welcome (snd out) = [mkRow "alice" "intro" "2018-01-01 00:00:00"].
Proof.
  intros out.
  pose (s1 := emit (log ERROR (Couldnt_read_the_block_Retrying 98))
                (emit (get_block 98) Scene.at_95)).
  pose (s2 := snd (process_fetched late_node 98 (Dict ["transactions"])
                     (emit (get_block 98) s1))).
  assert (E : out =
              (Raise TypeError, emit (log INFO (Processing_block 98)) s2)).
  { apply (process_block_found_at_second_attempt late_node 98 Scene.at_95
             PyNone (Dict ["transactions"]) s2); reflexivity. }
  rewrite E. repeat split.
Defined.

(** ** [run] *)

(** The computation leaves a missing directory missing and writes no
    checkpoint then. *)
Definition stays_absent : effect := fun s t s' =>
  CONFIG_PATH s = None ->
  CONFIG_PATH s' = None /\ checkpoints_written (rev t) = [].

#[export] Instance stays_absent_Frame : Frame stays_absent.
Proof.
  split.
  - intros s H. auto.
  - intros s t1 s1 t2 s2 H1 H2 H.
    destruct (H1 H) as [D1 W1]. destruct (H2 D1) as [D2 W2].
    rewrite rev_app_distr, checkpoints_written_app, W1, W2. auto.
Qed.

Lemma stays_absent_process_block e n retry_count :
  keeps stays_absent (process_block e n retry_count).
Proof.
  apply (keeps_process_block _
           (fun ev => match ev with
                      | write_checkpoint _ | makedirs => False
                      | _ => True
                      end)).
  - intros ev s Hev H. split; [exact H|]. destruct ev; try reflexivity;
      destruct Hev.
  - intros ev. destruct ev; exact I.
  - intros data d s Hd H. congruence.
  - intros post. apply (keeps_handle_command _
           (fun ev => match ev with
                      | write_checkpoint _ | makedirs => False
                      | _ => True
                      end)).
    + intros ev s Hev H. split; [exact H|]. destruct ev; try reflexivity;
        destruct Hev.
    + intros ev. destruct ev; exact I.
    + intros r s H. auto.
    + intros ev Hev. destruct ev; try exact I; discriminate Hev.
  - exact I.
Qed.

Lemma stays_absent_last_block_num e : keeps stays_absent (last_block_num e).
Proof.
  apply (keeps_bind stays_absent); [|intros p; apply keeps_ret; exact _].
  apply (keeps_properties _
           (fun ev => match ev with
                      | write_checkpoint _ | makedirs => False
                      | _ => True
                      end)).
  - intros ev s Hev H. split; [exact H|]. destruct ev; try reflexivity;
      destruct Hev.
  - intros ev. destruct ev; exact I.
Qed.

Lemma run_loop_without_directory e fuel :
  forall last_block s r s',
    CONFIG_PATH s = None ->
    run_loop e fuel last_block s = (r, s') ->
    exists t,
      trace s' = t ++ trace s /\
      CONFIG_PATH s' = None /\
      checkpoints_written (rev t) = [] /\
      (forall x, r = Ret x -> x = last_block).
Proof.
  induction fuel as [|fuel IH]; intros last_block s r s' Hd H.
  - injection H as <- <-. exists []. repeat split; auto.
    intros x [= <-]. reflexivity.
  - simpl in H. unfold bind at 1 in H.
    destruct (last_block_num e s) as [[head|x] s0] eqn:E0;
      destruct (stays_absent_last_block_num _ _ _ _ E0) as (t0 & Ht0 & A0);
      destruct (A0 Hd) as [D0 W0].
    2:{ injection H as <- <-. exists t0. repeat split; auto. intros y [=]. }
    destruct (0 <? head - last_block).
    + unfold bind at 1 in H.
      destruct (process_block e (last_block + 1) 0 s0) as [[u|x] s1] eqn:E1;
        destruct (stays_absent_process_block _ _ _ _ _ _ E1)
          as (t1 & Ht1 & A1);
        destruct (A1 D0) as [D1 W1].
      * unfold bind at 1, dump_checkpoint, write_file in H.
        rewrite D1 in H. injection H as <- <-.
        exists (t1 ++ t0).
        rewrite rev_app_distr, checkpoints_written_app, W0, W1.
        repeat split; auto.
        -- rewrite Ht1, Ht0. apply app_assoc.
        -- intros y [=].
      * injection H as <- <-. exists (t1 ++ t0).
        rewrite rev_app_distr, checkpoints_written_app, W0, W1.
        repeat split; auto.
        -- rewrite Ht1, Ht0. apply app_assoc.
        -- intros y [=].
    + unfold bind, block_interval, ask, logger, do_ in H.
      apply IH in H; [|exact D0].
      destruct H as (t & Ht & D & W & R).
      exists (t ++ [sleep (steem_block_interval e (clock s0));
                    log INFO
                      (Sleeping_for_seconds
                         (steem_block_interval e (clock s0)));
                    get_config] ++ t0).
      rewrite !rev_app_distr, !checkpoints_written_app, W0, W.
      repeat split; auto.
      rewrite Ht. simpl. rewrite Ht0, <- !app_assoc. reflexivity.
Qed.

(** X11: [run] with [start_from] does not read the checkpoint file and
    does not create the directory.  Where the directory is missing it
    never writes a checkpoint and never gets past the block after
    [start_from]: it sleeps, or it ends with an exception. *)
Theorem run_from_without_directory e fuel n s r s' :
  CONFIG_PATH s = None ->
  run e fuel (Some n) s = (r, s') ->
  exists t,
    trace s' = t ++ trace s /\
    CONFIG_PATH s' = None /\
    checkpoints_written (rev t) = [] /\
    (forall x, r = Ret x -> x = n).
Proof.
  intros Hd H. unfold run, bind, ret in H.
  apply (run_loop_without_directory e fuel n s r s' Hd H).
Qed.

Lemma run_from_without_directory_witness :
  let out := run (Scene.node [] Scene.full) 3 (Some 97) Scene.nothing in
  fst out = Raise FileNotFoundError /\
  fetched (history (snd out)) = [98] /\
  exists t,
    trace (snd out) = t ++ trace Scene.nothing /\
    CONFIG_PATH (snd out) = None /\
    checkpoints_written (rev t) = [] /\
    (forall x, fst out = Ret x -> x = 97).
Proof.
  intros out. split; [reflexivity|]. split; [reflexivity|].
  apply (run_from_without_directory (Scene.node [] Scene.full) 3 97
           Scene.nothing (fst out)).
  - reflexivity.
  - apply surjective_pairing.
Defined.

(** One round of the loop at the head. *)
Definition idle_round (interval : Z) : list event :=
  [get_dynamic_global_properties; get_config;
   log INFO (Sleeping_for_seconds interval); sleep interval].

Lemma run_loop_sleeps e head interval fuel :
  (forall t, exists p,
      steem_get_dynamic_global_properties e t = Some p /\
      head_block_number p = head) ->
  recursion_limit e <> O ->
  (forall t, steem_block_interval e t = interval) ->
  forall last_block s,
    head <= last_block ->
    exists s',
      run_loop e fuel last_block s = (Ret last_block, s') /\
      history s' =
      history s ++ List.concat (repeat (idle_round interval) fuel) /\
      CONFIG_PATH s' = CONFIG_PATH s /\
      welcome s' = welcome s /\
      upvote_table s' = upvote_table s.
Proof.
  intros Hhead Hrec Hint.
  induction fuel as [|fuel IH]; intros last_block s Hle.
  - exists s. split; [reflexivity|]. simpl. rewrite app_nil_r. auto.
  - simpl run_loop. unfold bind at 1.
    rewrite (last_block_num_head e head Hhead Hrec).
    destruct (Z.ltb_spec 0 (head - last_block)) as [Hlt|_]; [lia|].
    unfold bind, block_interval, ask, logger, do_. rewrite Hint.
    match goal with
    | |- context [run_loop e fuel last_block ?s3] =>
        destruct (IH last_block s3 Hle) as (s' & E & Hh & Hc & Hw & Hu)
    end.
    exists s'. split; [exact E|]. split; [|auto].
    rewrite Hh. unfold history. simpl. rewrite <- !app_assoc. reflexivity.
Qed.

(** X12: while the head is not ahead of the last block, the loop does
    nothing but ask for the head, ask for the block interval, log and
    sleep for that interval, round after round. *)
Theorem run_loop_at_the_head e head interval fuel last_block s :
  (forall t, exists p,
      steem_get_dynamic_global_properties e t = Some p /\
      head_block_number p = head) ->
  recursion_limit e <> O ->
  (forall t, steem_block_interval e t = interval) ->
  head <= last_block ->
  exists s',
    run_loop e fuel last_block s = (Ret last_block, s') /\
    history s' =
    history s ++ List.concat (repeat (idle_round interval) fuel) /\
    CONFIG_PATH s' = CONFIG_PATH s /\
    welcome s' = welcome s /\
    upvote_table s' = upvote_table s.
Proof.
  intros Hhead Hrec Hint Hle.
  apply (run_loop_sleeps e head interval fuel Hhead Hrec Hint). exact Hle.
Qed.

Lemma run_loop_at_the_head_witness :
  exists s',
    run_loop (Scene.node [] Scene.full) 2 100 Scene.at_95 = (Ret 100, s') /\
    history s' =
    [get_dynamic_global_properties; get_config;
     log INFO (Sleeping_for_seconds 3); sleep 3;
     get_dynamic_global_properties; get_config;
     log INFO (Sleeping_for_seconds 3); sleep 3] /\
    CONFIG_PATH s' = CONFIG_PATH Scene.at_95 /\
    welcome s' = [] /\
    upvote_table s' = [].
Proof.
  apply (run_loop_at_the_head (Scene.node [] Scene.full) 100 3 2 100
           Scene.at_95).
  - intros t. eexists. split; reflexivity.
  - discriminate.
  - reflexivity.
  - lia.
Defined.

(** X13: a first run, without a checkpoint file, writes the head to the
    file and fetches no block as long as the head stands: the blocks up
    to the head are never processed. *)
Theorem first_run_starts_at_the_head e head fuel s :
  (forall t, exists p,
      steem_get_dynamic_global_properties e t = Some p /\
      head_block_number p = head) ->
  recursion_limit e <> O ->
  checkpoint_file s = None ->
  exists s' t,
    listen e fuel s = (Ret head, s') /\
    trace s' = t ++ trace s /\
    fetched (rev t) = [] /\
    checkpoints_written (rev t) = [PyStr.str head] /\
    checkpoint_file s' = Some (PyStr.str head).
Proof.
  intros Hhead Hrec Hf.
  unfold listen, run, logger, do_. unfold bind at 1 2 3.
  rewrite (last_block_num_head e head Hhead Hrec). unfold bind at 1.
  set (s1 := emit get_dynamic_global_properties
               (emit (log INFO Starting_TX_listener) s)).
  destruct (load_checkpoint_absent head s1 Hf)
    as (s2 & t2 & E2 & Ht2 & F2 & W2 & C2).
  rewrite E2. unfold bind, ret.
  destruct (run_loop_idle e head Hhead Hrec fuel head
              (emit (log INFO (Last_processed_block head)) s2)
              ltac:(lia))
    as (s' & t & E & Ht & F & W & C & _).
  exists s',
    (t ++ [log INFO (Last_processed_block head)] ++ t2 ++
       [get_dynamic_global_properties; log INFO Starting_TX_listener]).
  split; [exact E|].
  rewrite !rev_app_distr, !fetched_app, !checkpoints_written_app, W, W2, F2,
    (Forall_False_nil _ F).
  split; [|split; [reflexivity|split; [reflexivity|]]].
  - rewrite Ht. cbn [trace emit]. rewrite Ht2. unfold s1.
    cbn [trace emit]. rewrite <- !app_assoc. cbn [app].
    rewrite <- ?app_assoc. reflexivity.
  - rewrite C. exact C2.
Qed.

Lemma first_run_starts_at_the_head_witness :
  exists s' t,
    listen (Scene.node [] Scene.full) 4 Scene.nothing = (Ret 100, s') /\
    trace s' = t ++ trace Scene.nothing /\
    fetched (rev t) = [] /\
    checkpoints_written (rev t) = ["100"] /\
    checkpoint_file s' = Some "100".
Proof.
  apply (first_run_starts_at_the_head (Scene.node [] Scene.full) 100 4
           Scene.nothing).
  - intros t. eexists. split; reflexivity.
  - discriminate.
  - reflexivity.
Defined.

(** ** [upvote] *)

(** X14: [upvote] always returns and changes no table; it sends one
    vote of weight 80 for the post when the table [upvote] has no row
    with the author and permlink of the post, and none when it has. *)
Theorem upvote_votes_unless_recorded e post s :
  exists s',
    upvote e post s = (Ret tt, s') /\
    actions (history s') =
    actions (history s) ++
    match find (fun r => String.eqb (row_author r) (author post)
                         && String.eqb (row_permlink r) (permlink post))
               (upvote_table s) with
    | Some _ => []
    | None => [vote (post_identifier post) 80 (account e)]
    end /\
    welcome s' = welcome s /\
    upvote_table s' = upvote_table s /\
    CONFIG_PATH s' = CONFIG_PATH s.
Proof.
  unfold upvote, find_one_upvote, logger, do_, ask, ret, bind.
  destruct (find _ (upvote_table s)).
  - eexists. split; [reflexivity|]. unfold history, actions. simpl.
    rewrite filter_app. simpl. auto.
  - destruct (commit_vote e (clock s) (post_identifier post)); simpl;
      (eexists; split; [reflexivity|]); unfold history, actions; simpl;
      rewrite ?filter_app; simpl; rewrite ?app_nil_r; auto.
Qed.

(** ** [handle_command] *)

(** X15: a welcome command under a main post whose author has no row in
    [welcome], with no row for the post in [upvote]: the reply made from
    the template is sent, then the vote; when the vote is accepted the
    command logs its success and appends the row of the author, and
    that is all it does. *)
Theorem welcome_on_main_post e post s main_post text :
  addressed e post ->
  steem_post e (clock s) (root_identifier post) = Some main_post ->
  welcomed (author main_post) s = false ->
  welcome_message e = Some text ->
  is_main_post main_post = true ->
  find (fun r => String.eqb (row_author r) (author main_post)
                 && String.eqb (row_permlink r) (permlink main_post))
       (upvote_table s) = None ->
  commit_vote e (S (S (clock s))) (post_identifier main_post) = true ->
  exists s',
    handle_command e post s = (Ret tt, s') /\
    history s' =
    history s ++
    [Post_init (root_identifier post);
     reply (post_identifier main_post)
       (PyStr.replace "$username" (author main_post) text) (account e);
     vote (post_identifier main_post) 80 (account e);
     log INFO (Replied_and_upvoted_user (author main_post));
     now_call] /\
    welcome s' =
    welcome s ++
    [mkRow (author main_post) (permlink main_post)
       (datetime_now e (4 + clock s))] /\
    upvote_table s' = upvote_table s.
Proof.
  intros H Hp Hw Ht Hmain Hup Hvote.
  rewrite (handle_command_main_post _ _ _ _ _ H Hp Hw Ht Hmain Hup).
  rewrite Hvote. eexists. split; [reflexivity|].
  unfold history. simpl. rewrite <- !app_assoc. auto.
Qed.

Lemma welcome_on_main_post_witness :
  exists s',
    handle_command (Scene.node [] Scene.full) Scene.carol_reply Scene.at_95 =
    (Ret tt, s') /\
    history s' =
    [Post_init ("alice", "intro");
     reply ("alice", "intro") "Welcome alice!" "bot";
     vote ("alice", "intro") 80 "bot";
     log INFO (Replied_and_upvoted_user "alice");
     now_call] /\
    welcome s' = [mkRow "alice" "intro" "2018-01-01 00:00:00"] /\
    upvote_table s' = [].
Proof.
  apply (welcome_on_main_post (Scene.node [] Scene.full) Scene.carol_reply
           Scene.at_95 Scene.alice_intro "Welcome $username!").
  - split; [reflexivity|discriminate].
  - reflexivity.
  - reflexivity.
  - reflexivity.
  - reflexivity.
  - reflexivity.
  - reflexivity.
Defined.

(** X16: when the vote is refused (the response is empty), the command
    logs the failure as an error, and still logs its success and
    appends the row of the author: the author will not be welcomed, or
    voted for, again. *)
Theorem welcome_with_refused_vote e post s main_post text :
  addressed e post ->
  steem_post e (clock s) (root_identifier post) = Some main_post ->
  welcomed (author main_post) s = false ->
  welcome_message e = Some text ->
  is_main_post main_post = true ->
  find (fun r => String.eqb (row_author r) (author main_post)
                 && String.eqb (row_permlink r) (permlink main_post))
       (upvote_table s) = None ->
  commit_vote e (S (S (clock s))) (post_identifier main_post) = false ->
  exists s',
    handle_command e post s = (Ret tt, s') /\
    history s' =
    history s ++
    [Post_init (root_identifier post);
     reply (post_identifier main_post)
       (PyStr.replace "$username" (author main_post) text) (account e);
     vote (post_identifier main_post) 80 (account e);
     log ERROR (Failed_upvoting (post_identifier main_post));
     log INFO (Replied_and_upvoted_user (author main_post));
     now_call] /\
    welcomed (author main_post) s' = true /\
    upvote_table s' = upvote_table s.
Proof.
  intros H Hp Hw Ht Hmain Hup Hvote.
  rewrite (handle_command_main_post _ _ _ _ _ H Hp Hw Ht Hmain Hup).
  rewrite Hvote. eexists. split; [reflexivity|].
  unfold history. simpl. rewrite <- !app_assoc.
  split; [reflexivity|]. split; [|reflexivity].
  unfold welcomed. simpl. rewrite existsb_app. simpl.
  rewrite String.eqb_refl. apply orb_true_iff. right. reflexivity.
Qed.

(** The node of the scene, refusing every vote. *)
Definition refusing_node : Env :=
  mkEnv "bot" ["spammer"] (Some "Welcome $username!")
    (fun _ => Scene.full)
    (fun _ => Some (mkProps 100 "2018-01-01T00:00:00"))
    (fun _ => 3) (fun _ _ => []) (fun _ => Scene.chain) (fun _ _ => false)
    (fun _ => "2018-01-01 00:00:00") 1000.

Lemma welcome_with_refused_vote_witness :
  exists s',
    handle_command refusing_node Scene.carol_reply Scene.at_95 =
    (Ret tt, s') /\
    history s' =
    [Post_init ("alice", "intro");
     reply ("alice", "intro") "Welcome alice!" "bot";
     vote ("alice", "intro") 80 "bot";
     log ERROR (Failed_upvoting ("alice", "intro"));
     log INFO (Replied_and_upvoted_user "alice");
     now_call] /\
    welcomed "alice" s' = true /\
    upvote_table s' = [].
Proof.
  apply (welcome_with_refused_vote refusing_node Scene.carol_reply
           Scene.at_95 Scene.alice_intro "Welcome $username!").
  - split; [reflexivity|discriminate].
  - reflexivity.
  - reflexivity.
  - reflexivity.
  - reflexivity.
  - reflexivity.
  - reflexivity.
Defined.

(** X17: when the template file cannot be opened, the command raises
    FileNotFoundError after it has looked up the subject, before any
    reply, vote or row. *)
Theorem welcome_without_template e post s main_post :
  addressed e post ->
  steem_post e (clock s) (root_identifier post) = Some main_post ->
  welcomed (author main_post) s = false ->
  welcome_message e = None ->
  handle_command e post s =
  (Raise FileNotFoundError, emit (Post_init (root_identifier post)) s).
Proof.
  intros H Hp Hw Ht. enter_command H. rewrite Hp. simpl.
  apply find_welcomed in Hw. rewrite Hw, Ht. reflexivity.
Qed.

Definition node_without_template : Env :=
  mkEnv "bot" ["spammer"] None
    (fun _ => Scene.full)
    (fun _ => Some (mkProps 100 "2018-01-01T00:00:00"))
    (fun _ => 3) (fun _ _ => []) (fun _ => Scene.chain) (fun _ _ => true)
    (fun _ => "2018-01-01 00:00:00") 1000.

Lemma welcome_without_template_witness :
  handle_command node_without_template Scene.carol_reply Scene.at_95 =
  (Raise FileNotFoundError, emit (Post_init ("alice", "intro")) Scene.at_95).
Proof.
  apply (welcome_without_template node_without_template Scene.carol_reply
           Scene.at_95 Scene.alice_intro).
  - split; [reflexivity|discriminate].
  - reflexivity.
  - reflexivity.
  - reflexivity.
Defined.

(** ** The table [welcome] *)

(** Rows are only added, at the end, and authors that were all
    different stay all different. *)
Definition welcome_grows : effect := fun s _ s' =>
  (exists rows, welcome s' = welcome s ++ rows) /\
  (NoDup (map row_author (welcome s)) ->
   NoDup (map row_author (welcome s'))).

#[export] Instance welcome_grows_Frame : Frame welcome_grows.
Proof.
  split.
  - intros s. split; [exists []; rewrite app_nil_r; reflexivity|auto].
  - intros s t1 s1 t2 s2 [[r1 G1] N1] [[r2 G2] N2]. split; [|auto].
    exists (r1 ++ r2). rewrite G2, G1, app_assoc. reflexivity.
Qed.

Lemma welcome_grows_same s t s' :
  welcome s' = welcome s -> welcome_grows s t s'.
Proof.
  intros E. split; rewrite E; [exists []; rewrite app_nil_r|]; auto.
Qed.

Lemma not_welcomed_not_In a s :
  welcomed a s = false -> ~ In a (map row_author (welcome s)).
Proof.
  unfold welcomed. intros H Hin. apply in_map_iff in Hin.
  destruct Hin as (r & Hr & Hin).
  assert (existsb (fun r => String.eqb (row_author r) a) (welcome s) = true).
  { apply existsb_exists. exists r. split; [exact Hin|].
    rewrite Hr. apply String.eqb_refl. }
  congruence.
Qed.

Lemma welcome_grows_insert a p stamp s t s' :
  welcomed a s = false ->
  welcome s' = welcome s ++ [mkRow a p stamp] ->
  welcome_grows s t s'.
Proof.
  intros Hw E. split; rewrite E.
  - eexists. reflexivity.
  - intros Hn. rewrite map_app. simpl.
    apply NoDup_app; [exact Hn|repeat constructor; intros []|].
    intros x Hx [<-|[]]. apply (not_welcomed_not_In _ _ Hw Hx).
Qed.

Lemma welcome_grows_handle_command e post :
  keeps welcome_grows (handle_command e post).
Proof.
  intros s r s'. unfold handle_command.
  destruct (existsb _ _).
  { intros [= <- <-]. cbn [trace emit]. give_events.
    apply welcome_grows_same. reflexivity. }
  destruct (Re.findall_welcome _ _).
  { intros [= <- <-]. give_events. apply welcome_grows_same. reflexivity. }
  unfold Post_, find_one_welcome, read_welcome_message, upvote,
    find_one_upvote, insert_welcome, logger, do_, ask, ret, raise, bind.
  destruct (steem_post e (clock s) _) as [main_post|]; cbn -[PyStr.replace].
  2:{ intros [= <- <-]. cbn [trace emit]. give_events.
      apply welcome_grows_same. reflexivity. }
  destruct (find _ (welcome s)) eqn:F.
  { intros [= <- <-]. cbn [trace emit]. give_events.
    apply welcome_grows_same. reflexivity. }
  apply find_welcomed in F.
  destruct (welcome_message e) as [text|]; cbn -[PyStr.replace].
  2:{ intros [= <- <-]. cbn [trace emit]. give_events.
      apply welcome_grows_same. reflexivity. }
  destruct (is_main_post main_post); cbn -[PyStr.replace].
  2:{ intros [= <- <-]. cbn [trace emit]. give_events.
      apply welcome_grows_same. reflexivity. }
  destruct (find _ (upvote_table s)); cbn -[PyStr.replace].
  { intros [= <- <-]. cbn [trace emit set_welcome]. give_events.
    eapply welcome_grows_insert; [exact F|reflexivity]. }
  destruct (commit_vote e _ _); cbn -[PyStr.replace];
    intros [= <- <-]; cbn [trace emit set_welcome]; give_events;
    (eapply welcome_grows_insert; [exact F|reflexivity]).
Qed.

Lemma welcome_grows_process_block e n retry_count :
  keeps welcome_grows (process_block e n retry_count).
Proof.
  apply (keeps_process_block _ (fun _ => True)).
  - intros ev s _. apply welcome_grows_same. reflexivity.
  - intros ev. destruct ev; exact I.
  - intros data d s _. apply welcome_grows_same. reflexivity.
  - apply welcome_grows_handle_command.
  - exact I.
Qed.

(** X18: processing a block only appends rows to the table [welcome],
    and when no two rows of the table have the same author before, no
    two have after: an author gets one row at most. *)
Theorem welcome_rows_stay_unique e n retry_count s r s' :
  NoDup (map row_author (welcome s)) ->
  process_block e n retry_count s = (r, s') ->
  (exists rows, welcome s' = welcome s ++ rows) /\
  NoDup (map row_author (welcome s')).
Proof.
  intros Hn H.
  destruct (welcome_grows_process_block _ _ _ _ _ _ H) as (t & _ & G & N).
  auto.
Qed.

Lemma welcome_rows_stay_unique_witness :
  let e := Scene.node
             [Scene.comment Scene.carol_reply;
              Scene.comment Scene.frank_reply;
              Scene.comment Scene.carol_reply] Scene.full in
  let out := process_block e 98 0 Scene.at_95 in
  welcome (snd out) = [mkRow "alice" "intro" "2018-01-01 00:00:00"] /\
  (exists rows, welcome (snd out) = welcome Scene.at_95 ++ rows) /\
  NoDup (map row_author (welcome (snd out))).
Proof.
  intros e out. split; [reflexivity|].
  apply (welcome_rows_stay_unique e 98 O Scene.at_95 (fst out)).
  - constructor.
  - apply surjective_pairing.
Defined.

(** ** [check_block] *)

(** X19: an operation that is no comment is passed over without a
    lookup, and a comment whose post does not exist is passed over after
    the lookup; in both cases the operations after it are processed. *)
Theorem check_block_passes_over e n s op rest :
  steem_get_ops_in_block e (clock s) n = op :: rest ->
  let s1 := emit (get_ops_in_block n) s in
  (operation_type op <> "comment" ->
   check_block e n s = for_each (check_operation e) rest s1) /\
  (operation_type op = "comment" ->
   steem_post e (clock s1) (raw_data op) = None ->
   check_block e n s =
   for_each (check_operation e) rest (emit (Post_init (raw_data op)) s1)).
Proof.
  intros Hops s1. subst s1.
  assert (E : check_block e n s =
              (check_operation e op ;;;
               for_each (check_operation e) rest)
                (emit (get_ops_in_block n) s)).
  { unfold check_block, bind at 1, ask at 1. rewrite Hops. reflexivity. }
  rewrite E. clear E. split.
  - intros Hc. unfold bind at 1, check_operation.
    destruct (String.eqb_spec (operation_type op) "comment");
      [contradiction|reflexivity].
  - intros Hc Hp. unfold bind at 1, check_operation.
    destruct (String.eqb_spec (operation_type op) "comment");
      [|contradiction].
    unfold Post_, try_except, ask, ret, raise, bind. rewrite Hp.
    reflexivity.
Qed.

Lemma check_block_passes_over_witness :
  let gone := mkOp "comment" ("nobody", "nothing") in
  let e1 := Scene.node
              [mkOp "vote" ("carol", "re-intro");
               Scene.comment Scene.carol_reply] Scene.full in
  let e2 := Scene.node [gone; Scene.comment Scene.carol_reply] Scene.full in
  let s1 := emit (get_ops_in_block 98) Scene.at_95 in
  actions (history (snd (check_block e2 98 Scene.at_95))) =
  [reply ("alice", "intro") "Welcome alice!" "bot";
   vote ("alice", "intro") 80 "bot"] /\
  check_block e1 98 Scene.at_95 =
  for_each (check_operation e1) [Scene.comment Scene.carol_reply] s1 /\
  check_block e2 98 Scene.at_95 =
  for_each (check_operation e2) [Scene.comment Scene.carol_reply]
    (emit (Post_init ("nobody", "nothing")) s1).
Proof.
  intros gone e1 e2 s1. split; [reflexivity|]. split.
  - apply (proj1 (check_block_passes_over e1 98 Scene.at_95
                    (mkOp "vote" ("carol", "re-intro"))
                    [Scene.comment Scene.carol_reply] eq_refl)).
    discriminate.
  - apply (proj2 (check_block_passes_over e2 98 Scene.at_95 gone
                    [Scene.comment Scene.carol_reply] eq_refl)).
    + reflexivity.
    + reflexivity.
Defined.

(** ** The mention and the pattern *)

Lemma atoms_of_plain_account account :
  PyStr.contains "." account = false ->
  Re.atoms_of_account account = Re.lits account.
Proof.
  induction account as [|c r IH]; [reflexivity|].
  cbn [Re.atoms_of_account Re.lits PyStr.contains String.prefix].
  unfold Re.atom_of_char.
  destruct (ascii_dec "." c) as [E|N].
  - intros H. destruct r; discriminate H.
  - intros H. destruct (Ascii.eqb_spec c "."%char) as [->|_];
      [contradiction N; reflexivity|].
    rewrite (IH H). reflexivity.
Qed.

Lemma lits_app x y : Re.lits (x ++ y)%string = Re.lits x ++ Re.lits y.
Proof. induction x as [|c r IH]; simpl; [|rewrite IH]; reflexivity. Qed.

Lemma match_here_lits x q :
  forall s, Re.match_here (Re.lits x ++ q) s = true ->
            String.prefix x s = true.
Proof.
  induction x as [|c r IH]; intros s H.
  - destruct s; reflexivity.
  - destruct s as [|c' s']; simpl in H; [discriminate|].
    apply andb_prop in H. destruct H as [Hc Hr].
    apply Ascii.eqb_eq in Hc. subst c'. simpl.
    destruct (ascii_dec c c) as [_|N]; [|contradiction].
    apply IH, Hr.
Qed.

Lemma findall_from_contains p group sub :
  (forall t, Re.match_here p t = true -> String.prefix sub t = true) ->
  forall s skip,
    Re.findall_from skip p group s <> [] -> PyStr.contains sub s = true.
Proof.
  intros Hp. induction s as [|c s IH]; intros skip H.
  - simpl in H. contradiction.
  - cbn [PyStr.contains]. destruct (String.prefix sub (String c s)) eqn:E;
      [reflexivity|].
    simpl in H. destruct skip as [|k]; [|apply (IH k H)].
    destruct (Re.match_here p (String c s)) eqn:M.
    + apply Hp in M. congruence.
    + apply (IH O H).
Qed.

(** The characters of a Steem account name that stand for themselves
    in a pattern: [a-z], [0-9] and [-]. *)
Definition literal_char (c : ascii) : bool :=
  let n := nat_of_ascii c in
  ((97 <=? n) && (n <=? 122) || (48 <=? n) && (n <=? 57) || (n =? 45))%nat.

Fixpoint literal_account (account : string) : bool :=
  match account with
  | EmptyString => true
  | String c r => literal_char c && literal_account r
  end.

Lemma literal_account_plain account :
  literal_account account = true -> PyStr.contains "." account = false.
Proof.
  induction account as [|c r IH]; [reflexivity|].
  cbn [literal_account PyStr.contains String.prefix]. intros H.
  apply andb_prop in H. destruct H as [Hc Hr].
  destruct (ascii_dec "." c) as [<-|_]; [discriminate Hc|].
  apply IH, Hr.
Qed.

(** X20: for an account name made of the characters [a-z], [0-9] and
    [-], a body in which the welcome pattern is found contains the
    mention ["@" + account]: the test of [check_block] lets every such
    command through to [handle_command]. *)
Theorem command_contains_mention account body :
  literal_account account = true ->
  Re.findall_welcome account body <> [] ->
  PyStr.contains ("@" ++ account)%string body = true.
Proof.
  intros Hlit H. pose proof (literal_account_plain _ Hlit) as Hplain.
  unfold Re.findall_welcome in H.
  apply (findall_from_contains (Re.welcome_pattern account) "welcome"
           ("@" ++ account)%string) with (skip := O); [|exact H].
  intros t Ht. unfold Re.welcome_pattern in Ht.
  rewrite (atoms_of_plain_account _ Hplain) in Ht.
  apply (match_here_lits ("@" ++ account)%string
           ([Re.Space; Re.Lit "!"] ++ Re.lits "welcome")).
  exact Ht.
Qed.

Lemma command_contains_mention_witness :
  PyStr.contains "@community-bot1"
    "hello @community-bot1 !welcome friend" = true.
Proof.
  apply (command_contains_mention "community-bot1"
           "hello @community-bot1 !welcome friend").
  - reflexivity.
  - discriminate.
Defined.
